(** * PNG Color Changer: the recolouring pipeline of [src/App.tsx]

    A shallow embedding of the colour parser [hexToRgb], of the pixel loop of
    [processImage] and of the two event handlers of the [App] component,
    followed by the properties of the written specification.

    JavaScript numbers are IEEE 754 binary64 values and are modelled by the
    primitive floats of the standard library, so that every arithmetic step
    of the pixel loop rounds exactly as it does in the browser.  The pixel
    buffer is a [Uint8ClampedArray]: its elements are integers of [0,255],
    a read yields a number, and a store converts a number back with the
    ECMAScript operation [ToUint8Clamp]. *)

From Stdlib Require Import ZArith Floats Lia Bool Ascii String.
From stdpp Require Import base list.

Set Warnings "-inexact-float".
Local Open Scope Z_scope.

(** ** Numbers *)

Module Number.

(** The number with the value of the integer [z] (exact below [2^53]). *)
Definition ofZ (z : Z) : float :=
  SF2Prim (binary_normalize prec emax z 0 false).

(** [ToUint8Clamp] of ECMAScript (7.1.12): [NaN] becomes 0, the argument is
    clamped to [0,255], and what remains is rounded to the nearest integer,
    a tie going to the even neighbour.  A finite positive binary64 value is
    [m * 2^e] exactly, so the comparisons of the standard are carried out on
    integers. *)
Definition ToUint8Clamp (x : float) : Z :=
  match Prim2SF x with
  | S754_nan => 0
  | S754_zero _ => 0
  | S754_infinity s => if s then 0 else 255
  | S754_finite true _ _ => 0
  | S754_finite false m e =>
      if 0 <=? e then Z.min 255 (Z.pos m * 2 ^ e)
      else
        let d := 2 ^ (- e) in
        if 255 * d <=? Z.pos m then 255
        else
          let f := Z.pos m / d in
          if 2 * Z.pos m <? (2 * f + 1) * d then f
          else if (2 * f + 1) * d <? 2 * Z.pos m then f + 1
          else if Z.even f then f else f + 1
  end.

(** The integer part of a number (truncation towards zero; 0 for [NaN] and
    the infinities), used to print a colour component. *)
Definition truncate (x : float) : Z :=
  match Prim2SF x with
  | S754_finite s m e =>
      let a := if 0 <=? e then Z.pos m * 2 ^ e else Z.pos m / 2 ^ (- e) in
      if s then - a else a
  | _ => 0
  end.

(** The rounding step of [ToUint8Clamp] alone, without the clamp: the
    nearest integer, a tie going to the even neighbour. *)
Definition roundTiesToEven (x : float) : Z :=
  match Prim2SF x with
  | S754_finite s m e =>
      let a :=
        if 0 <=? e then Z.pos m * 2 ^ e
        else
          let d := 2 ^ (- e) in
          let f := Z.pos m / d in
          if 2 * Z.pos m <? (2 * f + 1) * d then f
          else if (2 * f + 1) * d <? 2 * Z.pos m then f + 1
          else if Z.even f then f else f + 1 in
      if s then - a else a
  | _ => 0
  end.

End Number.

(** ** Regular expressions

    The fragment of ECMAScript patterns that the colour pattern uses, with
    the backtracking semantics of the standard: a matcher receives the
    current end index and the captures, and a continuation that matches the
    rest of the pattern. *)

Module RegExp.

Inductive regex : Type :=
  | Bol                                    (* ^ *)
  | Eol                                    (* $ *)
  | Chr (c : ascii)                        (* a literal character *)
  | Class (ranges : list (ascii * ascii))  (* [a-f\d]: a list of ranges *)
  | Seq (r1 r2 : regex)
  | Opt (r : regex)                        (* r?, greedy *)
  | Rep (n : nat) (r : regex)              (* r{n} *)
  | Group (n : nat) (r : regex).           (* the n-th capturing parenthesis *)

(** [result[n]] is [None] for a group that did not take part in the match. *)
Definition captures : Type := list (option (list ascii)).

(** [Canonicalize] without the unicode flag: under [ignoreCase] a character
    is compared through its upper-case form.  Strings are byte strings here;
    a byte above 127 has no case mapping onto an ASCII letter. *)
Definition toUpperCase (ch : ascii) : ascii :=
  let n := N_of_ascii ch in
  if ((97 <=? n) && (n <=? 122))%N then ascii_of_N (n - 32) else ch.

Definition canonicalize (ignoreCase : bool) (ch : ascii) : ascii :=
  if ignoreCase then toUpperCase ch else ch.

Definition charsOfRange (lo hi : ascii) : list ascii :=
  (fun k => ascii_of_nat (nat_of_ascii lo + k)) <$> seq 0 (S (nat_of_ascii hi) - nat_of_ascii lo).

(** A character belongs to a class when some member of the class has the
    same canonical form. *)
Definition inClass (ignoreCase : bool) (ranges : list (ascii * ascii)) (ch : ascii) : bool :=
  existsb
    (fun rg => existsb (fun a => Ascii.eqb (canonicalize ignoreCase a) (canonicalize ignoreCase ch))
                 (charsOfRange (fst rg) (snd rg)))
    ranges.

Definition slice (input : list ascii) (i j : nat) : list ascii :=
  take (j - i) (drop i input).

Fixpoint matcher (ignoreCase : bool) (input : list ascii) (r : regex)
    (i : nat) (caps : captures) (k : nat -> captures -> option captures)
    {struct r} : option captures :=
  match r with
  | Bol => if Nat.eqb i 0 then k i caps else None
  | Eol => if Nat.eqb i (length input) then k i caps else None
  | Chr c =>
      match input !! i with
      | Some ch =>
          if Ascii.eqb (canonicalize ignoreCase c) (canonicalize ignoreCase ch)
          then k (S i) caps else None
      | None => None
      end
  | Class ranges =>
      match input !! i with
      | Some ch => if inClass ignoreCase ranges ch then k (S i) caps else None
      | None => None
      end
  | Seq r1 r2 =>
      matcher ignoreCase input r1 i caps
        (fun j caps' => matcher ignoreCase input r2 j caps' k)
  | Opt r1 =>
      match matcher ignoreCase input r1 i caps k with
      | Some res => Some res
      | None => k i caps
      end
  | Rep n r1 =>
      (fix rep (n : nat) (i : nat) (caps : captures) : option captures :=
         match n with
         | O => k i caps
         | S n' => matcher ignoreCase input r1 i caps (rep n')
         end) n i caps
  | Group n r1 =>
      matcher ignoreCase input r1 i caps
        (fun j caps' => k j (<[n := Some (slice input i j)]> caps'))
  end.

(** One attempt per start index, from [lastIndex = 0] to the length of the
    input; the first success is the result, whose entry 0 is the whole
    match. *)
Fixpoint execFrom (attempts : nat) (ignoreCase : bool) (ngroups : nat) (r : regex)
    (input : list ascii) (i : nat) : option captures :=
  match attempts with
  | O => None
  | S attempts' =>
      match matcher ignoreCase input r i (replicate (S ngroups) None)
              (fun j caps => Some (<[0%nat := Some (slice input i j)]> caps)) with
      | Some res => Some res
      | None => execFrom attempts' ignoreCase ngroups r input (S i)
      end
  end.

Definition exec (ignoreCase : bool) (ngroups : nat) (r : regex) (input : string)
    : option captures :=
  let s := list_ascii_of_string input in
  execFrom (S (length s)) ignoreCase ngroups r s 0.

End RegExp.

(** ** [parseInt] *)

Definition isWhiteSpace (c : ascii) : bool :=
  let n := N_of_ascii c in (((9 <=? n) && (n <=? 13)) || (n =? 32))%N.

Fixpoint trimStart (s : list ascii) : list ascii :=
  match s with
  | c :: s' => if isWhiteSpace c then trimStart s' else s
  | [] => []
  end.

(** The value of a digit in any radix up to 36, if the character is one. *)
Definition digitValue (c : ascii) : option Z :=
  let n := Z.of_N (N_of_ascii c) in
  if (48 <=? n) && (n <=? 57) then Some (n - 48)
  else if (97 <=? n) && (n <=? 122) then Some (n - 87)
  else if (65 <=? n) && (n <=? 90) then Some (n - 55)
  else None.

(** The longest prefix of radix-[R] digits, read as an integer; [None] when
    the prefix is empty. *)
Fixpoint digitsPrefix (R : Z) (s : list ascii) (acc : option Z) : option Z :=
  match s with
  | c :: s' =>
      match digitValue c with
      | Some d =>
          if d <? R then digitsPrefix R s' (Some (R * default 0 acc + d)) else acc
      | None => acc
      end
  | [] => acc
  end.

Definition parseInt (string : list ascii) (radix : Z) : float :=
  let S0 := trimStart string in
  let sign := match S0 with "-"%char :: _ => -1 | _ => 1 end in
  let S1 := match S0 with
            | "-"%char :: t => t
            | "+"%char :: t => t
            | _ => S0
            end in
  if (negb (radix =? 0)) && ((radix <? 2) || (36 <? radix)) then nan
  else
    let stripPrefix := (radix =? 0) || (radix =? 16) in
    let R0 := if radix =? 0 then 10 else radix in
    let '(S2, R) :=
      match S1 with
      | "0"%char :: x :: t =>
          if stripPrefix && (Ascii.eqb x "x" || Ascii.eqb x "X") then (t, 16) else (S1, R0)
      | _ => (S1, R0)
      end in
    match digitsPrefix R S2 None with
    | None => nan
    | Some mathInt =>
        if mathInt =? 0 then (if sign =? -1 then (-0)%float else 0%float)
        else Number.ofZ (sign * mathInt)
    end.

(** ** [hexToRgb] *)

Record rgb : Type := mkRgb { r : float; g : float; b : float }.

(** [[a-f\d]] *)
Definition hexDigitClass : RegExp.regex :=
  RegExp.Class [("a"%char, "f"%char); ("0"%char, "9"%char)].

(** [/^#?([a-f\d]{2})([a-f\d]{2})([a-f\d]{2})$/i] *)
Definition hexPattern : RegExp.regex :=
  RegExp.Seq RegExp.Bol
   (RegExp.Seq (RegExp.Opt (RegExp.Chr "#"))
     (RegExp.Seq (RegExp.Group 1 (RegExp.Rep 2 hexDigitClass))
       (RegExp.Seq (RegExp.Group 2 (RegExp.Rep 2 hexDigitClass))
         (RegExp.Seq (RegExp.Group 3 (RegExp.Rep 2 hexDigitClass))
           RegExp.Eol)))).

(** [result[n]] as the argument of [parseInt], which applies [ToString]. *)
Definition capture (result : RegExp.captures) (n : nat) : list ascii :=
  match result !! n with
  | Some (Some s) => s
  | _ => list_ascii_of_string "undefined"
  end.

Definition hexToRgb (hex : string) : option rgb :=
  match RegExp.exec true 3 hexPattern hex with
  | Some result =>
      Some {| r := parseInt (capture result 1) 16;
              g := parseInt (capture result 2) 16;
              b := parseInt (capture result 3) 16 |}
  | None => None
  end.

(** ** The pixel loop of [processImage] *)

(** [data[i]] read as a number: an element of the array, or [undefined],
    which arithmetic and comparisons turn into [NaN]. *)
Definition getNum (data : list Z) (i : nat) : float :=
  match data !! i with
  | Some v => Number.ofZ v
  | None => nan
  end.

(** [data[i] = x]: the store converts with [ToUint8Clamp]; a typed array
    ignores a store outside its bounds, as stdpp's insert does. *)
Definition setNum (data : list Z) (i : nat) (x : float) : list Z :=
  <[i := Number.ToUint8Clamp x]> data.

Definition luminance (r_old g_old b_old : float) : float :=
  (0.299 * r_old + 0.587 * g_old + 0.114 * b_old)%float.

Definition intensity (luminance : float) : float :=
  (1 - luminance / 255)%float.

(** [c * intensity + 255 * (1 - intensity)], the right-hand side of the
    three stores. *)
Definition blend (c intensity : float) : float :=
  (c * intensity + 255 * (1 - intensity))%float.

(** The body of the loop at index [i] (lines 63-81). *)
Definition recolorAt (newColorRgb : rgb) (i : nat) (data : list Z) : list Z :=
  let alpha := getNum data (i + 3) in
  if (0 <? alpha)%float then
    let r_old := getNum data i in
    let g_old := getNum data (i + 1) in
    let b_old := getNum data (i + 2) in
    let luminance := luminance r_old g_old b_old in
    let intensity := intensity luminance in
    let data := setNum data i (blend (r newColorRgb) intensity) in
    let data := setNum data (i + 1) (blend (g newColorRgb) intensity) in
    let data := setNum data (i + 2) (blend (b newColorRgb) intensity) in
    data
  else data.

(** [for (let i = 0; i < data.length; i += 4)]: the guard is tested before
    every iteration; [fuel] bounds the number of iterations. *)
Fixpoint forLoop (fuel : nat) (newColorRgb : rgb) (i : nat) (data : list Z) : list Z :=
  match fuel with
  | O => data
  | S fuel' =>
      if (i <? length data)%nat
      then forLoop fuel' newColorRgb (i + 4) (recolorAt newColorRgb i data)
      else data
  end.

(** The index grows by 4 and the length never changes, so [length data]
    iterations are never exhausted ([forLoop_fuel] below). *)
Definition recolor (newColorRgb : rgb) (data : list Z) : list Z :=
  forLoop (length data) newColorRgb 0 data.

(** [ImageData]: the loop works on [imageData.data] in place, the
    dimensions belong to the same object. *)
Record ImageData : Type := mkImageData {
  width : nat;
  height : nat;
  data : list Z
}.

Definition recolorImageData (newColorRgb : rgb) (imageData : ImageData) : ImageData :=
  {| width := width imageData;
     height := height imageData;
     data := recolor newColorRgb (data imageData) |}.

(** The four channels of pixel [p] of a buffer. *)
Definition pixelAt (data : list Z) (p : nat) : option (Z * Z * Z * Z) :=
  match data !! (4 * p)%nat, data !! (4 * p + 1)%nat,
        data !! (4 * p + 2)%nat, data !! (4 * p + 3)%nat with
  | Some r0, Some g0, Some b0, Some a0 => Some (r0, g0, b0, a0)
  | _, _, _, _ => None
  end.

(** A colour whose components are the integers [tr], [tg], [tb]. *)
Definition rgbOfBytes (tr tg tb : Z) : rgb :=
  {| r := Number.ofZ tr; g := Number.ofZ tg; b := Number.ofZ tb |}.

Definition is_u8 (z : Z) : Prop := 0 <= z <= 255.

(** ** The component state and its handlers *)

Local Open Scope string_scope.

Record AppState : Type := mkAppState {
  selectedColor : string;
  originalImage : option string;
  processedImage : option string;
  isLoading : bool;
  error : option string
}.

Definition setSelectedColor (v : string) (st : AppState) : AppState :=
  {| selectedColor := v; originalImage := originalImage st;
     processedImage := processedImage st; isLoading := isLoading st; error := error st |}.
Definition setOriginalImage (v : option string) (st : AppState) : AppState :=
  {| selectedColor := selectedColor st; originalImage := v;
     processedImage := processedImage st; isLoading := isLoading st; error := error st |}.
Definition setProcessedImage (v : option string) (st : AppState) : AppState :=
  {| selectedColor := selectedColor st; originalImage := originalImage st;
     processedImage := v; isLoading := isLoading st; error := error st |}.
Definition setIsLoading (v : bool) (st : AppState) : AppState :=
  {| selectedColor := selectedColor st; originalImage := originalImage st;
     processedImage := processedImage st; isLoading := v; error := error st |}.
Definition setError (v : option string) (st : AppState) : AppState :=
  {| selectedColor := selectedColor st; originalImage := originalImage st;
     processedImage := processedImage st; isLoading := isLoading st; error := v |}.


(** [!originalImage]: [null] and the empty string are falsy. *)
Definition truthy (s : option string) : bool :=
  match s with
  | Some EmptyString => false
  | Some _ => true
  | None => false
  end.

(** What [processImage] leaves to the image loader: the source assigned to
    [img.src] and the colour captured by the [onload] closure. *)
Record LoadRequest : Type := mkLoadRequest {
  src : string;
  newColorRgb : rgb
}.

Section Browser.

(** The canvas of the page: whether [canvasRef.current] is set and whether
    [getContext('2d')] gives a context; [getImageData] after [drawImage]
    ([None] when it throws), and [toDataURL] after [putImageData]. *)
Variable Image : Type.
Variable canvasPresent : bool.
Variable contextPresent : bool.
Variable getImageData : Image -> option ImageData.
Variable toDataURL : ImageData -> string.

(** [processImage] up to [img.src = originalImage] (lines 34-50, 101). *)
Definition processImage (st : AppState) : AppState * option LoadRequest :=
  if negb (truthy (originalImage st)) || negb canvasPresent then (st, None)
  else
    let st := setIsLoading true st in
    let st := setError None st in
    let newColorRgb := hexToRgb (selectedColor st) in
    match (if contextPresent then newColorRgb else None) with
    | None =>
        let st := setError (Some "Invalid color format.") st in
        let st := setIsLoading false st in
        (st, None)
    | Some c =>
        (st, Some {| src := default EmptyString (originalImage st); newColorRgb := c |})
    end.

(** [img.onload] (lines 52-94). *)
Definition onload (req : LoadRequest) (img : Image) (st : AppState) : AppState :=
  match getImageData img with
  | Some imageData =>
      let imageData := recolorImageData (newColorRgb req) imageData in
      let dataUrl := toDataURL imageData in
      setIsLoading false (setProcessedImage (Some dataUrl) st)
  | None =>
      setIsLoading false
        (setError (Some "Could not process the image. Please ensure it is a valid PNG file.") st)
  end.

(** [img.onerror] (lines 96-99). *)
Definition onerror (st : AppState) : AppState :=
  setIsLoading false
    (setError (Some "Failed to load the image. It might be an invalid format.") st).

End Browser.

(** A [File] of the file input: its declared media type and its content. *)
Record File : Type := mkFile {
  type : string;
  content : string
}.

(** [handleFileChange] (lines 110-128): the new state, and the file handed
    to [reader.readAsDataURL] if a read is started. *)
Definition handleFileChange (file : option File) (st : AppState) : AppState * option File :=
  match file with
  | Some f =>
      if String.eqb (type f) "image/png" then (setError None st, Some f)
      else
        (setProcessedImage None
           (setOriginalImage None (setError (Some "Please upload a valid PNG file.") st)),
         None)
  | None =>
      (setProcessedImage None
         (setOriginalImage None (setError (Some "Please upload a valid PNG file.") st)),
       None)
  end.



(** [handleColorChange] (lines 130-132). *)
Definition handleColorChange (value : string) (st : AppState) : AppState :=
  setSelectedColor value st.

(** ** Two concrete situations of the component *)

(** A state in which a result is displayed. *)
Definition shownState : AppState :=
  {| selectedColor := "#4ade80";
     originalImage := Some "data:image/png;base64,AAAA";
     processedImage := Some "data:image/png;base64,BBBB";
     isLoading := false;
     error := None |}.

Definition jpegFile : File :=
  {| type := "image/jpeg"; content := "JFIF" |}.

Local Close Scope string_scope.

(** The effect of the loop body on one pixel, as a function of its four
    channels; [recolor_pixel] below shows that the loop applies it to every
    complete pixel of the buffer. *)
Definition recolorPixel (c : rgb) (px : Z * Z * Z * Z) : Z * Z * Z * Z :=
  let '(r0, g0, b0, a0) := px in
  if (0 <? Number.ofZ a0)%float then
    let k := intensity (luminance (Number.ofZ r0) (Number.ofZ g0) (Number.ofZ b0)) in
    (Number.ToUint8Clamp (blend (r c) k),
     Number.ToUint8Clamp (blend (g c) k),
     Number.ToUint8Clamp (blend (b c) k),
     a0)
  else px.

(** ** The effect and the rendering of the component *)

(** [String.prototype.toUpperCase], on the byte strings of this model. *)
Definition toUpperCaseString (s : string) : string :=
  string_of_list_ascii (RegExp.toUpperCase <$> list_ascii_of_string s).

Section Page.

Variable canvasPresent : bool.
Variable contextPresent : bool.

(** The effect of lines 104-108, run after a render in which
    [originalImage] or [selectedColor] has changed. *)
Definition effect (st : AppState) : AppState * option LoadRequest :=
  if truthy (originalImage st) then processImage canvasPresent contextPresent st
  else (st, None).

End Page.

(** What the result panel shows (lines 185-201). *)
Inductive Panel : Type :=
  | Spinner
  | ResultImage (src : string)
  | Placeholder.

(** The parts of the page that depend on the state (lines 166, 179, 181 and
    185-201). *)
Record Screen : Type := mkScreen {
  buttonLabel : string;
  colorLabel : string;
  errorText : option string;
  panel : Panel
}.

Definition render (st : AppState) : Screen :=
  {| buttonLabel :=
       if truthy (originalImage st) then "Change PNG File"%string
       else "Upload PNG File"%string;
     colorLabel := toUpperCaseString (selectedColor st);
     errorText := if truthy (error st) then error st else None;
     panel :=
       if isLoading st then Spinner
       else if truthy (processedImage st)
            then ResultImage (default EmptyString (processedImage st))
            else Placeholder |}.


(** ** Rounding in binary64

    The standard library specifies the operations on primitive floats by
    [SpecFloat]: a product or a sum is computed exactly on integer mantissas
    and then rounded by shifting out the digits beyond 53.  The definitions
    below name the steps of that rounding on positive values, for the proof
    that the blend is monotone in the target component. *)

(** [M / 2^n] rounded to the nearest integer, a tie going to the even one. *)
Definition rne (M n : Z) : Z :=
  let q := M / 2 ^ n in
  let rem := M mod 2 ^ n in
  if 2 * rem <? 2 ^ n then q
  else if 2 ^ n <? 2 * rem then q + 1
  else if Z.even q then q else q + 1.

(** The mantissa and the exponent of [M * 2^E] rounded to 53 digits. *)
Definition rnd (M E : Z) : Z * Z :=
  let n := Zdigits2 M - 53 in
  let a := rne M n in
  if a =? 2 ^ 53 then (2 ^ 52, E + n + 1) else (a, E + n).

Definition finite (me : Z * Z) : spec_float :=
  S754_finite false (Z.to_pos me.1) me.2.

(** The order of two rounded values: by exponent, then by mantissa. *)
Definition le_pair (x y : Z * Z) : Prop :=
  x.2 < y.2 \/ (x.2 = y.2 /\ x.1 <= y.1).

(** A positive normal number whose exponent lies in a window. *)
Definition normal (lo hi : Z) (x : spec_float) : Prop :=
  exists m e, x = S754_finite false m e /\ Z.pos (digits2_pos m) = 53 /\ lo <= e <= hi.

(** The sum of two mantissas brought to the smaller exponent. *)
Definition aligned_sum (mx ex mw ew : Z) : Z :=
  mx * 2 ^ (ex - Z.min ex ew) + mw * 2 ^ (ew - Z.min ex ew).

(** The number is [+0]. *)
Definition isZero (x : float) : bool :=
  match classify x with PZero => true | _ => false end.

(** The number is positive and normal, between [lo] and [hi]. *)
Definition normalIn (lo hi x : float) : bool :=
  match classify x with
  | PNormal => (lo <=? x)%float && (x <=? hi)%float
  | _ => false
  end.

(** ** Exhaustive checks over the bytes

    A channel has 256 values; what the arithmetic does on all of them is
    settled by running it. *)

Definition bytes : list Z := seqZ 0 256.

Definition numbers : list float := Number.ofZ <$> bytes.

Definition forBytes (p : Z -> bool) : bool := forallb p bytes.

(** All the pairs of bytes, each with its number. *)
Definition forBytePairs (p : Z -> float -> Z -> float -> bool) : bool :=
  let bs := (fun t => (t, Number.ofZ t)) <$> bytes in
  forallb (fun x => forallb (fun y => p x.1 x.2 y.1 y.2) bs) bs.

(** All the pixels [(r, g, b)], as numbers. *)
Definition forPixels (p : float -> float -> float -> bool) : bool :=
  let ns := numbers in
  forallb (fun r0 => forallb (fun g0 => forallb (fun b0 => p r0 g0 b0) ns) ns) ns.

(** What the scan checks of a pixel: its luminance [l] and its intensity
    [k] are in range; the blend of [k] with the target components 0 and 255
    is in range, and is 255 exactly for 255; and [k] and the weight of white
    [255 * (1 - k)] are each [+0] or a normal number that is not tiny. *)
Definition pixelCheck (r0 g0 b0 : float) : bool :=
  let l := luminance r0 g0 b0 in
  let k := intensity l in
  let w := (255 * (1 - k))%float in
  let lo := (0 * k + w)%float in
  let hi := (255 * k + w)%float in
  ((0 <=? l) && (l <=? 255) && (0 <=? k) && (k <=? 1)
   && (0 <=? lo) && (lo <=? 255) && (hi =? 255)
   && (isZero k || (normalIn 0x1p-12 1 k && (isZero w || normalIn 0x1p-4 255 w))))%float.

(** ** The colour pattern as the specification words it

    [^#?[0-9a-fA-F]{6}$]: an optional [#] and exactly six hexadecimal
    digits.  These definitions follow the specification, not the code;
    the theorems on [hexToRgb] compare the two. *)

Definition isHexDigit (ch : ascii) : bool :=
  let n := N_of_ascii ch in
  (((48 <=? n) && (n <=? 57)) || ((97 <=? n) && (n <=? 102))
   || ((65 <=? n) && (n <=? 70)))%N.

Definition stripHash (s : list ascii) : list ascii :=
  match s with
  | ch :: t => if Ascii.eqb ch "#" then t else s
  | [] => []
  end.

Definition matchesColorPattern (s : string) : bool :=
  let t := stripHash (list_ascii_of_string s) in
  Nat.eqb (length t) 6 && forallb isHexDigit t.

(** The value of a hexadecimal digit, and of a pair of them (base 16, no
    sign). *)
Definition hexValue (ch : ascii) : Z :=
  let n := Z.of_N (N_of_ascii ch) in
  if n <=? 57 then n - 48 else if n <=? 70 then n - 55 else n - 87.

Definition pairValue (c1 c2 : ascii) : Z := 16 * hexValue c1 + hexValue c2.

(** The colour that a string of six digits denotes. *)
Definition colorOfDigits (t : list ascii) : option rgb :=
  match t with
  | [c1; c2; c3; c4; c5; c6] =>
      Some (rgbOfBytes (pairValue c1 c2) (pairValue c3 c4) (pairValue c5 c6))
  | _ => None
  end.

(** A colour printed as six upper-case hexadecimal digits. *)
Definition hexChar (v : Z) : ascii :=
  nth (Z.to_nat v) (list_ascii_of_string "0123456789ABCDEF") "0"%char.

Definition toHex2 (x : float) : list ascii :=
  let n := Number.truncate x in [hexChar (n / 16); hexChar (n mod 16)].

Definition colorToHex (c : rgb) : list ascii :=
  toHex2 (r c) ++ toHex2 (g c) ++ toHex2 (b c).

Definition hexDigits : list ascii :=
  list_ascii_of_string "0123456789abcdefABCDEF".

(** What [exec] returns for the colour pattern on the characters [l]: the
    whole match and the three pairs of digits. *)
Definition hexResult (l : list ascii) : option RegExp.captures :=
  match stripHash l with
  | [c1; c2; c3; c4; c5; c6] =>
      if forallb isHexDigit [c1; c2; c3; c4; c5; c6]
      then Some [Some l; Some [c1; c2]; Some [c3; c4]; Some [c5; c6]]
      else None
  | _ => None
  end.

(** * Properties *)

(** ** Rounding in binary64 *)

Lemma iter_pos_nat {A} (f : A -> A) p x :
  SpecFloat.iter_pos f p x = Nat.iter (Pos.to_nat p) f x.
Proof.
  revert x. induction p as [p IH|p IH|]; intros x; cbn [SpecFloat.iter_pos].
  - rewrite !IH, Pos2Nat.inj_xI. rewrite <- Nat.iter_succ_r.
    rewrite <- Nat.iter_add. f_equal. lia.
  - rewrite !IH, Pos2Nat.inj_xO. rewrite <- Nat.iter_add. f_equal. lia.
  - reflexivity.
Qed.

Lemma shr_1_nonneg m r0 s0 :
  0 <= m ->
  shr_1 {| shr_m := m; shr_r := r0; shr_s := s0 |}
  = {| shr_m := m / 2; shr_r := Z.odd m; shr_s := r0 || s0 |}.
Proof.
  intros Hm. rewrite <- Z.div2_div.
  destruct m as [|[p|p|]|]; try lia; reflexivity.
Qed.

Lemma divmod_step M n :
  0 <= n ->
  M / 2 ^ (n + 1) = M / 2 ^ n / 2 /\
  M mod 2 ^ (n + 1) = M mod 2 ^ n + 2 ^ n * ((M / 2 ^ n) mod 2).
Proof.
  intros Hn. rewrite Z.pow_add_r by lia. change (2 ^ 1) with 2.
  assert (0 < 2 ^ n) by (apply Z.pow_pos_nonneg; lia).
  split.
  - rewrite Z.div_div by lia. reflexivity.
  - apply Z.rem_mul_r; lia.
Qed.

Lemma shr_iter M (n : nat) :
  0 <= M ->
  let rec := Nat.iter n shr_1 {| shr_m := M; shr_r := false; shr_s := false |} in
  let rem := M mod 2 ^ Z.of_nat n in
  shr_m rec = M / 2 ^ Z.of_nat n /\
  shr_r rec = (2 ^ Z.of_nat n <=? 2 * rem) /\
  shr_s rec = negb ((rem =? 0) || (2 * rem =? 2 ^ Z.of_nat n)).
Proof.
  intros HM. induction n as [|n IH]; cbn zeta in *.
  - cbn [Nat.iter shr_m shr_r shr_s]. change (2 ^ Z.of_nat 0) with 1.
    rewrite Z.div_1_r, Z.mod_1_r. done.
  - rewrite !Nat.iter_succ. destruct (Nat.iter n shr_1 _) as [m r0 s0].
    cbn [shr_m shr_r shr_s] in IH. destruct IH as (-> & -> & ->).
    assert (0 < 2 ^ Z.of_nat n) as Hpow by (apply Z.pow_pos_nonneg; lia).
    assert (0 <= M / 2 ^ Z.of_nat n) as Hq by (apply Z.div_pos; lia).
    rewrite shr_1_nonneg by done. cbn [shr_m shr_r shr_s].
    rewrite Nat2Z.inj_succ, <- Z.add_1_r.
    destruct (divmod_step M (Z.of_nat n)) as [-> ->]; [lia|].
    rewrite Z.pow_add_r by lia. change (2 ^ 1) with 2.
    pose proof (Z.mod_pos_bound M (2 ^ Z.of_nat n) Hpow) as Hrem.
    rewrite (Zmod_odd (M / 2 ^ Z.of_nat n)).
    set (rem := M mod 2 ^ Z.of_nat n) in *. set (P := 2 ^ Z.of_nat n) in *.
    split; [done|].
    destruct (Z.odd (M / P)); split.
    all: repeat match goal with
           | |- context [?a <=? ?b] => destruct (Z.leb_spec a b)
           | |- context [?a =? ?b] => destruct (Z.eqb_spec a b)
           end; cbn; try done; try lia.
Qed.

Lemma round_shr M (n : nat) :
  0 <= M ->
  let rec := Nat.iter n shr_1 {| shr_m := M; shr_r := false; shr_s := false |} in
  round_nearest_even (shr_m rec) (loc_of_shr_record rec) = rne M (Z.of_nat n).
Proof.
  intros HM. pose proof (shr_iter M n HM) as Hit. cbn zeta in *.
  destruct (Nat.iter n shr_1 _) as [m r0 s0]. cbn [shr_m shr_r shr_s] in Hit.
  destruct Hit as (-> & -> & ->). unfold rne.
  assert (0 < 2 ^ Z.of_nat n) as Hpow by (apply Z.pow_pos_nonneg; lia).
  pose proof (Z.mod_pos_bound M (2 ^ Z.of_nat n) Hpow) as Hrem.
  set (rem := M mod 2 ^ Z.of_nat n) in *. set (P := 2 ^ Z.of_nat n) in *.
  unfold loc_of_shr_record, round_nearest_even.
  repeat match goal with
    | |- context [?a <=? ?b] => destruct (Z.leb_spec a b)
    | |- context [?a <? ?b] => destruct (Z.ltb_spec a b)
    | |- context [?a =? ?b] => destruct (Z.eqb_spec a b)
    end; cbn; try done; try lia.
Qed.

Lemma digits2_size p : digits2_pos p = Pos.size p.
Proof. induction p as [p IH|p IH|]; cbn; by rewrite ?IH. Qed.

Lemma digits_bounds p :
  2 ^ (Z.pos (digits2_pos p) - 1) <= Z.pos p < 2 ^ Z.pos (digits2_pos p).
Proof.
  rewrite digits2_size.
  pose proof (Pos.size_gt p) as Hgt. pose proof (Pos.size_le p) as Hle.
  apply Pos2Z.pos_lt_pos in Hgt. apply Pos2Z.pos_le_pos in Hle.
  rewrite Pos2Z.inj_pow in Hgt, Hle.
  assert (2 ^ Z.pos (Pos.size p) = 2 * 2 ^ (Z.pos (Pos.size p) - 1)) as Hpow.
  { rewrite <- Z.pow_succ_r by lia. f_equal. lia. }
  lia.
Qed.

Lemma digits_unique p k :
  2 ^ (k - 1) <= Z.pos p < 2 ^ k -> Z.pos (digits2_pos p) = k.
Proof.
  intros [Hlo Hhi]. pose proof (digits_bounds p) as [Hlo' Hhi'].
  set (d := Z.pos (digits2_pos p)) in *.
  destruct (Z.lt_trichotomy d k) as [Hlt|[Heq|Hgt]]; [|done|].
  - assert (2 ^ d <= 2 ^ (k - 1)) by (apply Z.pow_le_mono_r; lia). lia.
  - assert (0 <= k).
    { destruct (Z.le_gt_cases 0 k); [done|]. rewrite Z.pow_neg_r in Hhi by lia. lia. }
    assert (2 ^ k <= 2 ^ (d - 1)) by (apply Z.pow_le_mono_r; lia). lia.
Qed.

(** [rne M n] lies between the quotient and its successor. *)
Lemma rne_bounds M n : M / 2 ^ n <= rne M n <= M / 2 ^ n + 1.
Proof. unfold rne. repeat case_match; lia. Qed.

(** The quotient of a number by all but 53 of its digits has 53 digits. *)
Lemma quotient_bounds p :
  53 <= Z.pos (digits2_pos p) ->
  2 ^ 52 <= Z.pos p / 2 ^ (Z.pos (digits2_pos p) - 53) < 2 ^ 53.
Proof.
  intros Hd. pose proof (digits_bounds p) as [Hlo Hhi].
  set (d := Z.pos (digits2_pos p)) in *.
  assert (0 < 2 ^ (d - 53)) as Hpow by (apply Z.pow_pos_nonneg; lia).
  replace (2 ^ (d - 1)) with (2 ^ 52 * 2 ^ (d - 53)) in Hlo
    by (rewrite <- Z.pow_add_r by lia; f_equal; lia).
  replace (2 ^ d) with (2 ^ 53 * 2 ^ (d - 53)) in Hhi
    by (rewrite <- Z.pow_add_r by lia; f_equal; lia).
  split.
  - apply Z.div_le_lower_bound; lia.
  - apply Z.div_lt_upper_bound; lia.
Qed.

Lemma shr_nonneg_spec M e n :
  0 <= M -> 0 <= n ->
  let res := shr {| shr_m := M; shr_r := false; shr_s := false |} e n in
  round_nearest_even (shr_m res.1) (loc_of_shr_record res.1) = rne M n /\
  res.2 = e + n.
Proof.
  intros HM Hn. unfold shr. destruct n as [|pn|pn]; [| |lia].
  - cbn. unfold rne. change (2 ^ 0) with 1. rewrite Z.div_1_r, Z.mod_1_r. cbn.
    split; [done|lia].
  - cbn [fst snd]. rewrite iter_pos_nat. split; [|done].
    rewrite <- (positive_nat_Z pn). by apply round_shr.
Qed.

Lemma binary_round_aux_normal (p : positive) (E : Z) :
  53 <= Z.pos (digits2_pos p) ->
  -1021 <= Z.pos (digits2_pos p) + E <= 1023 ->
  binary_round_aux prec emax false (Z.pos p) E loc_Exact = finite (rnd (Z.pos p) E).
Proof.
  intros Hd He. unfold binary_round_aux, shr_fexp, rnd, finite.
  cbn [Zdigits2 shr_record_of_loc].
  set (d := Z.pos (digits2_pos p)) in *.
  assert (fexp prec emax (d + E) - E = d - 53) as ->.
  { unfold fexp, SpecFloat.emin, prec, emax. lia. }
  pose proof (shr_nonneg_spec (Z.pos p) E (d - 53)) as Hshr.
  cbn zeta in Hshr. destruct (shr _ E (d - 53)) as [mrs' e'].
  cbn [fst snd] in Hshr. destruct Hshr as [-> ->]; [lia|lia|].
  pose proof (rne_bounds (Z.pos p) (d - 53)) as Hrne.
  pose proof (quotient_bounds p Hd) as Hq. fold d in Hq.
  set (a := rne (Z.pos p) (d - 53)) in *.
  destruct (Z.eqb_spec a (2 ^ 53)) as [->|Hne].
  - vm_compute (Zdigits2 (2 ^ 53)).
    assert (fexp prec emax (54 + (E + (d - 53))) - (E + (d - 53)) = 1) as ->.
    { unfold fexp, SpecFloat.emin, prec, emax. lia. }
    cbn [shr SpecFloat.iter_pos shr_1 Z.pow Z.pow_pos Pos.iter Z.mul Pos.mul shr_m fst snd].
    unfold prec, emax.
    destruct (Z.leb_spec (E + (d - 53) + 1) (1024 - 53)); [|lia].
    cbn [fst snd]. f_equal; lia.
  - assert (2 ^ 52 <= a < 2 ^ 53) as Ha by lia.
    destruct a as [|pa|pa]; try lia. cbn [Zdigits2].
    rewrite (digits_unique pa 53) by (change (53 - 1) with 52; lia).
    assert (fexp prec emax (53 + (E + (d - 53))) - (E + (d - 53)) = 0) as ->.
    { unfold fexp, SpecFloat.emin, prec, emax. lia. }
    cbn [shr shr_m fst snd]. unfold prec, emax.
    destruct (Z.leb_spec (E + (d - 53)) (1024 - 53)); [|lia].
    reflexivity.
Qed.

Lemma rne_mono M1 M2 n : 0 <= n -> M1 <= M2 -> rne M1 n <= rne M2 n.
Proof.
  intros Hn HM.
  assert (0 < 2 ^ n) as Hpow by (apply Z.pow_pos_nonneg; lia).
  pose proof (Z.div_le_mono M1 M2 (2 ^ n) Hpow HM) as Hq.
  pose proof (rne_bounds M1 n) as Hb1. pose proof (rne_bounds M2 n) as Hb2.
  destruct (Z.eq_dec (M1 / 2 ^ n) (M2 / 2 ^ n)) as [Heq|Hne]; [|lia].
  pose proof (Z.div_mod M1 (2 ^ n)) as Hd1. pose proof (Z.div_mod M2 (2 ^ n)) as Hd2.
  unfold rne. rewrite Heq in *.
  set (q := M2 / 2 ^ n) in *. set (P := 2 ^ n) in *.
  set (r1 := M1 mod P) in *. set (r2 := M2 mod P) in *.
  assert (r1 <= r2) by lia.
  repeat match goal with
    | |- context [?a <? ?b] => destruct (Z.ltb_spec a b)
    end; try lia; destruct (Z.even q); lia.
Qed.

Lemma Zdigits2_pos M : 0 < M -> exists p, M = Z.pos p /\ Zdigits2 M = Z.pos (digits2_pos p).
Proof. destruct M as [|p|p]; try lia. intros _. by exists p. Qed.

Lemma Zdigits2_bounds M : 0 < M -> 2 ^ (Zdigits2 M - 1) <= M < 2 ^ Zdigits2 M.
Proof.
  intros HM. destruct (Zdigits2_pos M HM) as (p & -> & ->). apply digits_bounds.
Qed.

Lemma Zdigits2_unique M k : 2 ^ (k - 1) <= M < 2 ^ k -> 0 < M -> Zdigits2 M = k.
Proof.
  intros Hb HM. destruct (Zdigits2_pos M HM) as (p & -> & ->). by apply digits_unique.
Qed.

Lemma Zdigits2_shift M j : 0 < M -> 0 <= j -> Zdigits2 (M * 2 ^ j) = Zdigits2 M + j.
Proof.
  intros HM Hj. pose proof (Zdigits2_bounds M HM) as [Hlo Hhi].
  assert (0 < 2 ^ j) as Hpow by (apply Z.pow_pos_nonneg; lia).
  assert (1 <= Zdigits2 M).
  { destruct (Zdigits2_pos M HM) as (p & -> & ->). lia. }
  apply Zdigits2_unique; [|lia].
  replace (Zdigits2 M + j - 1) with (Zdigits2 M - 1 + j) by lia.
  rewrite !Z.pow_add_r by lia. nia.
Qed.

Lemma rne_shift M n j : 0 <= n -> 0 <= j -> rne (M * 2 ^ j) (n + j) = rne M n.
Proof.
  intros Hn Hj. unfold rne.
  assert (0 < 2 ^ j) as Hpj by (apply Z.pow_pos_nonneg; lia).
  assert (0 < 2 ^ n) as Hpn by (apply Z.pow_pos_nonneg; lia).
  rewrite Z.pow_add_r by lia.
  rewrite Z.div_mul_cancel_r by lia. rewrite Z.mul_mod_distr_r by lia.
  set (q := M / 2 ^ n). set (rem := M mod 2 ^ n).
  repeat match goal with
    | |- context [?a <? ?b] => destruct (Z.ltb_spec a b)
    end; try reflexivity; nia.
Qed.

(** The rounding depends on the value only: the mantissa may be shifted
    left and the exponent lowered. *)
Lemma rnd_scale M E j :
  0 < M -> 53 <= Zdigits2 M -> 0 <= j -> rnd (M * 2 ^ j) (E - j) = rnd M E.
Proof.
  intros HM Hd Hj. unfold rnd. rewrite Zdigits2_shift by lia.
  replace (Zdigits2 M + j - 53) with (Zdigits2 M - 53 + j) by lia.
  rewrite rne_shift by lia.
  destruct (_ =? _); f_equal; lia.
Qed.

Lemma rnd_mantissa M E :
  0 < M -> 53 <= Zdigits2 M -> 2 ^ 52 <= (rnd M E).1 < 2 ^ 53.
Proof.
  intros HM Hd. unfold rnd.
  destruct (Zdigits2_pos M HM) as (p & -> & Hp). rewrite Hp in *.
  pose proof (quotient_bounds p Hd) as Hq.
  pose proof (rne_bounds (Z.pos p) (Z.pos (digits2_pos p) - 53)) as Hr.
  destruct (Z.eqb_spec (rne (Z.pos p) (Z.pos (digits2_pos p) - 53)) (2 ^ 53)); cbn [fst]; lia.
Qed.

Lemma Zdigits2_mono M1 M2 : 0 < M1 <= M2 -> Zdigits2 M1 <= Zdigits2 M2.
Proof.
  intros HM. pose proof (Zdigits2_bounds M1) as [Hlo1 _]; [lia|].
  pose proof (Zdigits2_bounds M2) as [_ Hhi2]; [lia|].
  destruct (Z.le_gt_cases (Zdigits2 M1) (Zdigits2 M2)) as [|Hgt]; [done|].
  assert (2 ^ Zdigits2 M2 <= 2 ^ (Zdigits2 M1 - 1)).
  { apply Z.pow_le_mono_r; [lia|]. lia. }
  lia.
Qed.

Lemma rnd_mono_same N1 N2 E :
  0 < N1 <= N2 -> 53 <= Zdigits2 N1 -> le_pair (rnd N1 E) (rnd N2 E).
Proof.
  intros HN Hd1. pose proof (Zdigits2_mono N1 N2 HN) as Hd.
  pose proof (rnd_mantissa N1 E) as Hm1. pose proof (rnd_mantissa N2 E) as Hm2.
  unfold le_pair. unfold rnd in *.
  destruct (Z.eq_dec (Zdigits2 N1) (Zdigits2 N2)) as [Heq|Hne].
  - rewrite <- Heq in *.
    pose proof (rne_mono N1 N2 (Zdigits2 N1 - 53)) as Hmono.
    destruct (Z.eqb_spec (rne N1 (Zdigits2 N1 - 53)) (2 ^ 53));
      destruct (Z.eqb_spec (rne N2 (Zdigits2 N1 - 53)) (2 ^ 53));
      cbn [fst snd] in *; lia.
  - destruct (Z.eqb_spec (rne N1 (Zdigits2 N1 - 53)) (2 ^ 53));
      destruct (Z.eqb_spec (rne N2 (Zdigits2 N2 - 53)) (2 ^ 53));
      cbn [fst snd] in *; lia.
Qed.

Lemma rnd_mono M1 E1 M2 E2 S :
  0 < M1 -> 0 < M2 -> 53 <= Zdigits2 M1 -> 53 <= Zdigits2 M2 ->
  S <= E1 -> S <= E2 ->
  M1 * 2 ^ (E1 - S) <= M2 * 2 ^ (E2 - S) ->
  le_pair (rnd M1 E1) (rnd M2 E2).
Proof.
  intros HM1 HM2 Hd1 Hd2 HS1 HS2 Hle.
  rewrite <- (rnd_scale M1 E1 (E1 - S)) by lia.
  rewrite <- (rnd_scale M2 E2 (E2 - S)) by lia.
  replace (E1 - (E1 - S)) with S by lia. replace (E2 - (E2 - S)) with S by lia.
  assert (0 < 2 ^ (E1 - S)) by (apply Z.pow_pos_nonneg; lia).
  apply rnd_mono_same; [nia|].
  rewrite Zdigits2_shift by lia. lia.
Qed.

Lemma SFleb_finite m1 e1 m2 e2 :
  SFleb (S754_finite false m1 e1) (S754_finite false m2 e2) = true <->
  le_pair (Z.pos m1, e1) (Z.pos m2, e2).
Proof.
  unfold SFleb, SFcompare, le_pair. cbn [fst snd].
  change (PosDef.Pos.compare_cont Eq m1 m2) with (Pos.compare m1 m2).
  destruct (Z.compare_spec e1 e2) as [->| |].
  - destruct (Pos.compare_spec m1 m2); split; try done; try lia.
  - split; [lia|done].
  - split; [done|lia].
Qed.

Lemma finite_rnd_normal M E lo hi :
  0 < M -> 53 <= Zdigits2 M ->
  lo <= E + Zdigits2 M - 53 -> E + Zdigits2 M - 52 <= hi ->
  normal lo hi (finite (rnd M E)).
Proof.
  intros HM Hd Hlo Hhi. pose proof (rnd_mantissa M E HM Hd) as Hm.
  unfold normal, finite. eexists _, _. split; [done|].
  split.
  - apply digits_unique. rewrite Z2Pos.id by lia. change (53 - 1) with 52. lia.
  - unfold rnd. destruct (_ =? _); cbn [snd]; lia.
Qed.

Lemma SFleb_finite_rnd M1 E1 M2 E2 :
  0 < M1 -> 53 <= Zdigits2 M1 -> 0 < M2 -> 53 <= Zdigits2 M2 ->
  le_pair (rnd M1 E1) (rnd M2 E2) ->
  SFleb (finite (rnd M1 E1)) (finite (rnd M2 E2)) = true.
Proof.
  intros HM1 Hd1 HM2 Hd2 Hle. unfold finite. apply SFleb_finite.
  pose proof (rnd_mantissa M1 E1 HM1 Hd1). pose proof (rnd_mantissa M2 E2 HM2 Hd2).
  rewrite !Z2Pos.id by lia. by destruct (rnd M1 E1), (rnd M2 E2).
Qed.

(** The order of two normal numbers is the order of their values. *)
Lemma le_pair_value m1 e1 m2 e2 S :
  2 ^ 52 <= m1 < 2 ^ 53 -> 2 ^ 52 <= m2 < 2 ^ 53 -> S <= e1 -> S <= e2 ->
  le_pair (m1, e1) (m2, e2) -> m1 * 2 ^ (e1 - S) <= m2 * 2 ^ (e2 - S).
Proof.
  intros Hm1 Hm2 HS1 HS2 Hle. unfold le_pair in Hle. cbn [fst snd] in Hle.
  destruct Hle as [Hlt|[-> Hle]].
  - replace (e2 - S) with (e2 - e1 - 1 + 1 + (e1 - S)) by lia.
    rewrite !Z.pow_add_r by lia. change (2 ^ 1) with 2.
    assert (0 < 2 ^ (e1 - S)) by (apply Z.pow_pos_nonneg; lia).
    assert (0 < 2 ^ (e2 - e1 - 1)) by (apply Z.pow_pos_nonneg; lia).
    set (P := 2 ^ (e1 - S)) in *. set (Q := 2 ^ (e2 - e1 - 1)) in *.
    assert (m1 * P <= 2 ^ 53 * P) by nia.
    assert (2 ^ 53 * P <= m2 * 2 * P) by nia.
    assert (m2 * 2 * P <= m2 * (Q * 2 * P)) by nia.
    lia.
  - assert (0 < 2 ^ (e2 - S)) by (apply Z.pow_pos_nonneg; lia). nia.
Qed.

Lemma normal_mantissa m :
  Z.pos (digits2_pos m) = 53 -> 2 ^ 52 <= Z.pos m < 2 ^ 53.
Proof.
  intros Hd. pose proof (digits_bounds m) as Hb. rewrite Hd in Hb.
  by change (53 - 1) with 52 in Hb.
Qed.

(** *** Multiplication *)

Lemma mul_digits m1 m2 :
  Z.pos (digits2_pos m1) = 53 -> Z.pos (digits2_pos m2) = 53 ->
  105 <= Z.pos (digits2_pos (m1 * m2)) <= 106.
Proof.
  intros H1 H2. pose proof (normal_mantissa m1 H1). pose proof (normal_mantissa m2 H2).
  pose proof (digits_bounds (m1 * m2)) as [Hlo Hhi]. rewrite Pos2Z.inj_mul in Hlo, Hhi.
  set (d := Z.pos (digits2_pos (m1 * m2))) in *.
  assert (2 ^ 104 <= Z.pos m1 * Z.pos m2 < 2 ^ 106).
  { change (2 ^ 104) with (2 ^ 52 * 2 ^ 52). change (2 ^ 106) with (2 ^ 53 * 2 ^ 53). nia. }
  split.
  - destruct (Z.le_gt_cases 105 d); [done|].
    assert (2 ^ d <= 2 ^ 104) by (apply Z.pow_le_mono_r; lia). lia.
  - destruct (Z.le_gt_cases d 106); [done|].
    assert (2 ^ 106 <= 2 ^ (d - 1)) by (apply Z.pow_le_mono_r; lia). lia.
Qed.

Lemma SFmul_normal m1 e1 m2 e2 :
  Z.pos (digits2_pos m1) = 53 -> Z.pos (digits2_pos m2) = 53 ->
  -1000 <= e1 + e2 <= 900 ->
  SF64mul (S754_finite false m1 e1) (S754_finite false m2 e2)
  = finite (rnd (Z.pos (m1 * m2)) (e1 + e2)).
Proof.
  intros H1 H2 He. pose proof (mul_digits m1 m2 H1 H2).
  unfold SF64mul, SFmul. cbn [xorb]. apply binary_round_aux_normal; lia.
Qed.

(** Multiplication by a positive normal number is monotone. *)
Lemma SFmul_mono m1 e1 m2 e2 my ey :
  Z.pos (digits2_pos m1) = 53 -> Z.pos (digits2_pos m2) = 53 ->
  Z.pos (digits2_pos my) = 53 ->
  -1000 <= e1 + ey <= 900 -> -1000 <= e2 + ey <= 900 ->
  le_pair (Z.pos m1, e1) (Z.pos m2, e2) ->
  le_pair (rnd (Z.pos (m1 * my)) (e1 + ey)) (rnd (Z.pos (m2 * my)) (e2 + ey)).
Proof.
  intros H1 H2 Hy He1 He2 Hle.
  pose proof (mul_digits m1 my H1 Hy). pose proof (mul_digits m2 my H2 Hy).
  pose proof (normal_mantissa m1 H1) as Hb1. pose proof (normal_mantissa m2 H2) as Hb2.
  apply (rnd_mono _ _ _ _ (Z.min e1 e2 + ey)); cbn [Zdigits2]; try lia.
  rewrite !Pos2Z.inj_mul.
  replace (e1 + ey - (Z.min e1 e2 + ey)) with (e1 - Z.min e1 e2) by lia.
  replace (e2 + ey - (Z.min e1 e2 + ey)) with (e2 - Z.min e1 e2) by lia.
  pose proof (le_pair_value _ _ _ _ (Z.min e1 e2) Hb1 Hb2
    (Z.le_min_l e1 e2) (Z.le_min_r e1 e2) Hle).
  nia.
Qed.

(** *** Addition *)

Lemma pos_iter_xO m d : Z.pos (Pos.iter xO m d) = Z.pos m * 2 ^ Z.pos d.
Proof.
  induction d as [|d IH] using Pos.peano_ind.
  - cbn [Pos.iter]. change (2 ^ 1) with 2. lia.
  - rewrite Pos.iter_succ, Pos2Z.inj_succ, Z.pow_succ_r by lia.
    rewrite Pos2Z.inj_xO, IH. lia.
Qed.

Lemma shl_align_value m e ez :
  ez <= e -> Z.pos (shl_align m e ez).1 = Z.pos m * 2 ^ (e - ez).
Proof.
  intros He. unfold shl_align. destruct (ez - e) as [|d|d] eqn:Hd; try lia; cbn [fst].
  - replace (e - ez) with 0 by lia. lia.
  - rewrite pos_iter_xO. f_equal. f_equal. lia.
Qed.

Lemma Zdigits2_upper M k : 0 < M < 2 ^ k -> Zdigits2 M <= k.
Proof.
  intros HM. pose proof (Zdigits2_bounds M) as [Hlo _]; [lia|].
  destruct (Z.le_gt_cases (Zdigits2 M) k) as [|Hgt]; [done|].
  assert (0 <= k).
  { destruct (Z.le_gt_cases 0 k); [done|]. rewrite Z.pow_neg_r in HM by lia. lia. }
  assert (2 ^ k <= 2 ^ (Zdigits2 M - 1)) by (apply Z.pow_le_mono_r; lia). lia.
Qed.

Lemma Zdigits2_lower M k : 2 ^ k <= M -> 0 <= k -> k + 1 <= Zdigits2 M.
Proof.
  intros HM Hk. assert (0 < 2 ^ k) by (apply Z.pow_pos_nonneg; lia).
  pose proof (Zdigits2_bounds M) as [_ Hhi]; [lia|].
  destruct (Z.le_gt_cases (k + 1) (Zdigits2 M)) as [|Hgt]; [done|].
  assert (0 <= Zdigits2 M).
  { destruct (Z.le_gt_cases 0 (Zdigits2 M)); [done|]. rewrite Z.pow_neg_r in Hhi by lia. lia. }
  assert (2 ^ Zdigits2 M <= 2 ^ k) by (apply Z.pow_le_mono_r; lia). lia.
Qed.

Lemma aligned_sum_digits mx ex mw ew :
  2 ^ 52 <= mx < 2 ^ 53 -> 2 ^ 52 <= mw < 2 ^ 53 ->
  0 < aligned_sum mx ex mw ew /\
  53 <= Zdigits2 (aligned_sum mx ex mw ew) <= 54 + (Z.max ex ew - Z.min ex ew).
Proof.
  intros Hx Hw. unfold aligned_sum.
  set (ez := Z.min ex ew). set (D := Z.max ex ew - ez).
  assert (0 < 2 ^ (ex - ez)) by (apply Z.pow_pos_nonneg; lia).
  assert (0 < 2 ^ (ew - ez)) by (apply Z.pow_pos_nonneg; lia).
  assert (2 ^ (ex - ez) <= 2 ^ D) by (apply Z.pow_le_mono_r; lia).
  assert (2 ^ (ew - ez) <= 2 ^ D) by (apply Z.pow_le_mono_r; lia).
  assert (ex - ez = 0 \/ ew - ez = 0) as Hz by lia.
  assert (2 ^ 52 <= mx * 2 ^ (ex - ez) + mw * 2 ^ (ew - ez)).
  { destruct Hz as [-> | ->]; change (2 ^ 0) with 1; nia. }
  split; [lia|]. split.
  - apply (Zdigits2_lower _ 52); lia.
  - apply Zdigits2_upper. split; [lia|].
    replace (54 + D) with (1 + 53 + D) by lia.
    rewrite !Z.pow_add_r by lia. change (2 ^ 1) with 2.
    assert (mx * 2 ^ (ex - ez) <= mx * 2 ^ D) by nia.
    assert (mw * 2 ^ (ew - ez) <= mw * 2 ^ D) by nia.
    assert (0 < 2 ^ D) by lia. nia.
Qed.

Lemma SFadd_normal mx ex mw ew :
  Z.pos (digits2_pos mx) = 53 -> Z.pos (digits2_pos mw) = 53 ->
  -1000 <= ex <= 900 -> -1000 <= ew <= 900 ->
  SF64add (S754_finite false mx ex) (S754_finite false mw ew)
  = finite (rnd (aligned_sum (Z.pos mx) ex (Z.pos mw) ew) (Z.min ex ew)).
Proof.
  intros Hx Hw Hex Hew.
  pose proof (aligned_sum_digits (Z.pos mx) ex (Z.pos mw) ew
                (normal_mantissa mx Hx) (normal_mantissa mw Hw)) as (Hpos & Hd).
  unfold aligned_sum in *.
  unfold SF64add, SFadd. cbn [cond_Zopp].
  set (ez := Z.min ex ew) in *.
  rewrite <- (shl_align_value mx ex ez), <- (shl_align_value mw ew ez) in * by lia.
  set (a := (shl_align mx ex ez).1) in *. set (b := (shl_align mw ew ez).1) in *.
  change (Z.pos a + Z.pos b) with (Z.pos (a + b)) in *.
  cbn [binary_normalize Zdigits2] in *. unfold binary_round.
  assert (shl_align (a + b) ez (fexp prec emax (Z.pos (digits2_pos (a + b)) + ez))
          = ((a + b)%positive, ez)) as ->.
  { unfold shl_align.
    destruct (fexp prec emax (Z.pos (digits2_pos (a + b)) + ez) - ez) eqn:Hf; try done.
    unfold fexp, SpecFloat.emin, prec, emax in Hf. lia. }
  apply binary_round_aux_normal; lia.
Qed.

(** Adding a positive normal number is monotone. *)
Lemma SFadd_mono m1 e1 m2 e2 mw ew :
  Z.pos (digits2_pos m1) = 53 -> Z.pos (digits2_pos m2) = 53 ->
  Z.pos (digits2_pos mw) = 53 ->
  le_pair (Z.pos m1, e1) (Z.pos m2, e2) ->
  le_pair (rnd (aligned_sum (Z.pos m1) e1 (Z.pos mw) ew) (Z.min e1 ew))
          (rnd (aligned_sum (Z.pos m2) e2 (Z.pos mw) ew) (Z.min e2 ew)).
Proof.
  intros H1 H2 Hw Hle.
  pose proof (normal_mantissa m1 H1) as Hb1. pose proof (normal_mantissa m2 H2) as Hb2.
  pose proof (normal_mantissa mw Hw) as Hbw.
  destruct (aligned_sum_digits (Z.pos m1) e1 (Z.pos mw) ew Hb1 Hbw) as (Hp1 & Hd1).
  destruct (aligned_sum_digits (Z.pos m2) e2 (Z.pos mw) ew Hb2 Hbw) as (Hp2 & Hd2).
  set (S := Z.min (Z.min e1 e2) ew).
  assert (S <= e1 /\ S <= e2 /\ S <= ew) as (HS1 & HS2 & HSw) by (unfold S; lia).
  apply (rnd_mono _ _ _ _ S); try lia.
  unfold aligned_sum. rewrite !Z.mul_add_distr_r, <- !Z.mul_assoc, <- !Z.pow_add_r by lia.
  replace (e1 - Z.min e1 ew + (Z.min e1 ew - S)) with (e1 - S) by lia.
  replace (ew - Z.min e1 ew + (Z.min e1 ew - S)) with (ew - S) by lia.
  replace (e2 - Z.min e2 ew + (Z.min e2 ew - S)) with (e2 - S) by lia.
  replace (ew - Z.min e2 ew + (Z.min e2 ew - S)) with (ew - S) by lia.
  pose proof (le_pair_value _ _ _ _ S Hb1 Hb2 HS1 HS2 Hle). lia.
Qed.

(** *** Products and sums of positive normal numbers *)

Lemma finite_value M E :
  0 < M -> 53 <= Zdigits2 M ->
  exists m, finite (rnd M E) = S754_finite false m (rnd M E).2 /\
            Z.pos m = (rnd M E).1 /\ Z.pos (digits2_pos m) = 53.
Proof.
  intros HM Hd. pose proof (rnd_mantissa M E HM Hd) as Hm.
  exists (Z.to_pos (rnd M E).1). split; [done|].
  rewrite Z2Pos.id by lia. split; [done|].
  apply digits_unique. rewrite Z2Pos.id by lia. change (53 - 1) with 52. lia.
Qed.

Lemma SFmul_normal_mono lo1 hi1 lo2 hi2 x1 x2 y :
  normal lo1 hi1 x1 -> normal lo1 hi1 x2 -> normal lo2 hi2 y ->
  -1000 <= lo1 + lo2 -> hi1 + hi2 <= 900 ->
  normal (lo1 + lo2 + 52) (hi1 + hi2 + 54) (SF64mul x1 y) /\
  (SFleb x1 x2 = true -> SFleb (SF64mul x1 y) (SF64mul x2 y) = true).
Proof.
  intros (m1 & e1 & -> & H1 & He1) (m2 & e2 & -> & H2 & He2) (my & ey & -> & Hy & Hey) Hlo Hhi.
  pose proof (mul_digits m1 my H1 Hy) as Hd1. pose proof (mul_digits m2 my H2 Hy) as Hd2.
  rewrite !SFmul_normal by (done || lia). split.
  - apply finite_rnd_normal; cbn [Zdigits2]; lia.
  - intros Hle. apply SFleb_finite in Hle.
    apply SFleb_finite_rnd; cbn [Zdigits2]; try lia.
    apply SFmul_mono; (done || lia).
Qed.

Lemma SFadd_normal_mono lo hi lo' hi' x1 x2 w :
  normal lo hi x1 -> normal lo hi x2 -> normal lo' hi' w ->
  -1000 <= lo -> hi <= 900 -> -1000 <= lo' -> hi' <= 900 ->
  SFleb (S754_zero false) (SF64add x1 w) = true /\
  (SFleb x1 x2 = true -> SFleb (SF64add x1 w) (SF64add x2 w) = true).
Proof.
  intros (m1 & e1 & -> & H1 & He1) (m2 & e2 & -> & H2 & He2) (mw & ew & -> & Hw & Hew).
  intros Hlo Hhi Hlo' Hhi'.
  destruct (aligned_sum_digits (Z.pos m1) e1 (Z.pos mw) ew
              (normal_mantissa m1 H1) (normal_mantissa mw Hw)) as (Hp1 & Hd1).
  destruct (aligned_sum_digits (Z.pos m2) e2 (Z.pos mw) ew
              (normal_mantissa m2 H2) (normal_mantissa mw Hw)) as (Hp2 & Hd2).
  rewrite !SFadd_normal by (done || lia). split.
  - reflexivity.
  - intros Hle. apply SFleb_finite in Hle.
    apply SFleb_finite_rnd; try lia. by apply SFadd_mono.
Qed.

Lemma SFadd_zero_r lo hi x : normal lo hi x -> SF64add x (S754_zero false) = x.
Proof. by intros (m & e & -> & _). Qed.

Lemma SFleb_zero_normal lo hi x : normal lo hi x -> SFleb (S754_zero false) x = true.
Proof. by intros (m & e & -> & _). Qed.

(** *** The same on numbers *)

Lemma isZero_spec x : isZero x = true -> x = 0%float.
Proof.
  unfold isZero. rewrite classify_spec. intros Hc.
  rewrite <- (SF2Prim_Prim2SF x).
  destruct (Prim2SF x) as [[]|[]| |[] m e]; try done;
    unfold SF64classify, SFclassify in Hc; by destruct (_ =? _).
Qed.

Lemma normalIn_spec lo hi x mlo elo mhi ehi :
  Prim2SF lo = S754_finite false mlo elo ->
  Prim2SF hi = S754_finite false mhi ehi ->
  normalIn lo hi x = true -> normal elo ehi (Prim2SF x).
Proof.
  unfold normalIn. rewrite classify_spec, !leb_spec. intros -> -> Hc.
  destruct (Prim2SF x) as [[]|[]| |[] m e]; try done;
    unfold SF64classify, SFclassify in Hc; destruct (Z.eqb_spec (Z.pos (digits2_pos m)) prec);
    try done.
  apply andb_true_iff in Hc as [Hlo Hhi].
  apply SFleb_finite in Hlo, Hhi. unfold le_pair in *. cbn [fst snd] in *.
  exists m, e. repeat split; (done || lia).
Qed.

(** The blend [c * k + w] with [w] the weight of white: monotone in the
    target component [c], and not negative. *)
Lemma blend_monotone (c c' k : float) :
  normalIn 1 255 c = true -> normalIn 1 255 c' = true ->
  normalIn 0x1p-12 1 k = true ->
  isZero (255 * (1 - k)) || normalIn 0x1p-4 255 (255 * (1 - k)) = true ->
  (c <=? c')%float = true ->
  (0 <=? c * k + 255 * (1 - k))%float = true /\
  (c * k + 255 * (1 - k) <=? c' * k + 255 * (1 - k))%float = true.
Proof.
  intros Hc Hc' Hk Hw Hle.
  apply (normalIn_spec _ _ _ 4503599627370496 (-52) 8972014882652160 (-45)) in Hc, Hc';
    try reflexivity.
  apply (normalIn_spec _ _ _ 4503599627370496 (-64) 4503599627370496 (-52)) in Hk;
    try reflexivity.
  rewrite leb_spec in Hle.
  destruct (SFmul_normal_mono _ _ _ _ _ _ _ Hc Hc' Hk) as [Hp Hmono]; [lia|lia|].
  destruct (SFmul_normal_mono _ _ _ _ _ _ _ Hc' Hc Hk) as [Hp' _]; [lia|lia|].
  specialize (Hmono Hle).
  set (w := (255 * (1 - k))%float) in *.
  rewrite !leb_spec, !add_spec, !mul_spec.
  apply orb_true_iff in Hw as [Hw|Hw].
  - apply isZero_spec in Hw. rewrite Hw.
    change (Prim2SF 0) with (S754_zero false).
    rewrite (SFadd_zero_r _ _ _ Hp), (SFadd_zero_r _ _ _ Hp').
    split; [by eapply SFleb_zero_normal|done].
  - apply (normalIn_spec _ _ _ 4503599627370496 (-56) 8972014882652160 (-45)) in Hw;
      try reflexivity.
    change (Prim2SF 0) with (S754_zero false).
    destruct (SFadd_normal_mono _ _ _ _ _ _ _ Hp Hp' Hw) as [Hpos Hadd]; try lia.
    split; [done|]. by apply Hadd.
Qed.

(** ** The loop body *)

Section LoopBody.

Variable c : rgb.

Lemma setNum_length d i x : length (setNum d i x) = length d.
Proof. apply length_insert. Qed.

Lemma recolorAt_length i d : length (recolorAt c i d) = length d.
Proof.
  unfold recolorAt. destruct (0 <? getNum d (i + 3))%float; [|done].
  by rewrite !setNum_length.
Qed.

Lemma getNum_None d i : d !! i = None -> (0 <? getNum d i)%float = false.
Proof. unfold getNum. by intros ->. Qed.

(** The body writes at [i], [i+1] and [i+2] only, and only when the alpha
    channel at [i+3] exists and compares positive. *)
Lemma recolorAt_changed i d j :
  recolorAt c i d !! j <> d !! j ->
  (i <= j <= i + 2)%nat /\ (0 <? getNum d (i + 3))%float = true.
Proof.
  unfold recolorAt. destruct (0 <? getNum d (i + 3))%float; [|done].
  intros Hne. split; [|done].
  destruct (decide (i <= j <= i + 2)%nat) as [|Hout]; [done|].
  exfalso. apply Hne. unfold setNum.
  rewrite !list_lookup_insert_ne by lia. done.
Qed.

Lemma recolorAt_lookup_ne i d j :
  ~ (i <= j <= i + 2)%nat -> recolorAt c i d !! j = d !! j.
Proof.
  intros Hout. destruct (decide (recolorAt c i d !! j = d !! j)) as [|Hne]; [done|].
  apply recolorAt_changed in Hne. tauto.
Qed.

Lemma pixelAt_Some d p px :
  pixelAt d p = Some px <->
  d !! (4 * p)%nat = Some px.1.1.1 /\ d !! (4 * p + 1)%nat = Some px.1.1.2 /\
  d !! (4 * p + 2)%nat = Some px.1.2 /\ d !! (4 * p + 3)%nat = Some px.2.
Proof.
  unfold pixelAt. destruct px as [[[r0 g0] b0] a0]; simpl.
  split.
  - intros H. repeat case_match; by simplify_eq.
  - by intros (-> & -> & -> & ->).
Qed.

Lemma pixelAt_length d p px : pixelAt d p = Some px -> (4 * p + 3 < length d)%nat.
Proof.
  rewrite pixelAt_Some. intros (_ & _ & _ & Ha). by apply lookup_lt_Some in Ha.
Qed.

(** On its own pixel the body computes [recolorPixel]. *)
Lemma recolorAt_pixel d p px :
  pixelAt d p = Some px ->
  pixelAt (recolorAt c (4 * p) d) p = Some (recolorPixel c px).
Proof.
  intros Hpx. pose proof (pixelAt_length _ _ _ Hpx) as Hlen.
  destruct px as [[[r0 g0] b0] a0].
  apply pixelAt_Some in Hpx as (Hr & Hg & Hb & Ha); simpl in *.
  unfold recolorAt, recolorPixel, getNum. rewrite Hr, Hg, Hb, Ha.
  destruct (0 <? Number.ofZ a0)%float.
  - apply pixelAt_Some; simpl. unfold setNum.
    repeat split.
    + rewrite !list_lookup_insert_ne by lia.
      apply list_lookup_insert_eq. lia.
    + rewrite list_lookup_insert_ne by lia.
      apply list_lookup_insert_eq. rewrite length_insert. lia.
    + apply list_lookup_insert_eq. rewrite !length_insert. lia.
    + by rewrite !list_lookup_insert_ne by lia.
  - apply pixelAt_Some; simpl. done.
Qed.

(** On any other pixel the body changes nothing. *)
Lemma recolorAt_other_pixel d p q :
  p <> q -> pixelAt (recolorAt c (4 * q) d) p = pixelAt d p.
Proof.
  intros Hne. unfold pixelAt. rewrite !recolorAt_lookup_ne by lia. done.
Qed.

End LoopBody.

(** ** The loop *)

Section Loop.

Variable c : rgb.

Lemma forLoop_length fuel i d : length (forLoop fuel c i d) = length d.
Proof.
  revert i d. induction fuel as [|fuel IH]; intros i d; simpl; [done|].
  case_match; [|done]. rewrite IH. apply recolorAt_length.
Qed.

(** Once the guard fails the loop is over, so fuel beyond the number of
    iterations is never used. *)
Lemma forLoop_fuel fuel extra i d :
  (length d <= i + 4 * fuel)%nat ->
  forLoop (fuel + extra) c i d = forLoop fuel c i d.
Proof.
  revert i d. induction fuel as [|fuel IH]; intros i d Hlen; simpl.
  - destruct extra as [|extra]; simpl; [done|].
    destruct (Nat.ltb_spec i (length d)); [lia|done].
  - case_match; [|done]. apply IH. rewrite recolorAt_length. lia.
Qed.

Lemma recolor_fuel extra d : forLoop (length d + extra) c 0 d = recolor c d.
Proof. apply forLoop_fuel. lia. Qed.

Lemma recolor_length d : length (recolor c d) = length d.
Proof. apply forLoop_length. Qed.

(** The iterations from pixel [q] on do not touch the pixels before [q]. *)
Lemma forLoop_pixel_before fuel q d p :
  (p < q)%nat -> pixelAt (forLoop fuel c (4 * q) d) p = pixelAt d p.
Proof.
  revert q d. induction fuel as [|fuel IH]; intros q d Hpq; cbn [forLoop]; [done|].
  case_match; [|done].
  replace (4 * q + 4)%nat with (4 * S q)%nat by lia.
  rewrite IH by lia. apply recolorAt_other_pixel. lia.
Qed.

Lemma forLoop_pixel fuel q d p px :
  (q <= p)%nat -> (p - q < fuel)%nat -> pixelAt d p = Some px ->
  pixelAt (forLoop fuel c (4 * q) d) p = Some (recolorPixel c px).
Proof.
  revert q d. induction fuel as [|fuel IH]; intros q d Hqp Hfuel Hpx; [lia|].
  pose proof (pixelAt_length _ _ _ Hpx) as Hlen. cbn [forLoop].
  destruct (Nat.ltb_spec (4 * q) (length d)); [|lia].
  replace (4 * q + 4)%nat with (4 * S q)%nat by lia.
  destruct (decide (q = p)) as [->|Hne].
  - rewrite forLoop_pixel_before by lia. by apply recolorAt_pixel.
  - apply IH; [lia|lia|]. rewrite recolorAt_other_pixel by lia. done.
Qed.

(** Every complete pixel of the buffer is mapped by [recolorPixel], whatever
    the other pixels are. *)
Lemma recolor_pixel d p px :
  pixelAt d p = Some px -> pixelAt (recolor c d) p = Some (recolorPixel c px).
Proof.
  intros Hpx. pose proof (pixelAt_length _ _ _ Hpx) as Hlen.
  unfold recolor. change 0%nat with (4 * 0)%nat. apply forLoop_pixel; [lia|lia|done].
Qed.

Lemma positive_alpha d i :
  (0 <? getNum d i)%float = true -> exists a, d !! i = Some a /\ a <> 0.
Proof.
  unfold getNum. destruct (d !! i) as [a|]; [|done].
  intros Hpos. exists a. split; [done|]. intros ->. done.
Qed.

(** An element that the loop changes is a colour channel of a pixel whose
    alpha channel is present and not zero. *)
Lemma forLoop_changed fuel q d j :
  forLoop fuel c (4 * q) d !! j <> d !! j ->
  (j mod 4 <> 3)%nat /\ exists a, d !! (4 * (j / 4) + 3)%nat = Some a /\ a <> 0.
Proof.
  revert q d. induction fuel as [|fuel IH]; intros q d; cbn [forLoop]; [done|].
  case_match; [|done].
  replace (4 * q + 4)%nat with (4 * S q)%nat by lia. intros Hne.
  destruct (decide (recolorAt c (4 * q) d !! j = d !! j)) as [Heq|Hbody].
  - rewrite <- Heq in Hne. apply IH in Hne as [Hmod (a & Ha & Ha0)].
    split; [done|]. exists a. split; [|done].
    rewrite <- Ha. symmetry. apply recolorAt_lookup_ne.
    pose proof (Nat.div_mod_eq j 4). lia.
  - apply recolorAt_changed in Hbody as [Hj Hpos].
    assert (j / 4 = q)%nat as Hq.
    { symmetry. apply (Nat.div_unique j 4 q (j - 4 * q)); lia. }
    split.
    + pose proof (Nat.div_mod_eq j 4). lia.
    + rewrite Hq. by apply positive_alpha.
Qed.

Lemma recolor_changed d j :
  recolor c d !! j <> d !! j ->
  (j mod 4 <> 3)%nat /\ exists a, d !! (4 * (j / 4) + 3)%nat = Some a /\ a <> 0.
Proof. unfold recolor. change 0%nat with (4 * 0)%nat at 1. apply forLoop_changed. Qed.

End Loop.

(** ** Bytes and numbers *)

Lemma forBytes_spec p : forBytes p = true -> forall z, is_u8 z -> p z = true.
Proof.
  unfold forBytes, bytes, is_u8. intros Hall z Hz.
  rewrite forallb_forall in Hall. apply Hall.
  apply list_elem_of_In, elem_of_seqZ. lia.
Qed.

Lemma forPixels_spec p :
  forPixels p = true ->
  forall r0 g0 b0, is_u8 r0 -> is_u8 g0 -> is_u8 b0 ->
    p (Number.ofZ r0) (Number.ofZ g0) (Number.ofZ b0) = true.
Proof.
  unfold forPixels. intros Hall r0 g0 b0 Hr Hg Hb.
  assert (forall z, is_u8 z -> In (Number.ofZ z) numbers) as Hin.
  { intros z Hz. apply list_elem_of_In, list_elem_of_fmap. exists z. split; [done|].
    apply elem_of_seqZ. unfold is_u8 in Hz. lia. }
  rewrite forallb_forall in Hall. specialize (Hall _ (Hin r0 Hr)).
  rewrite forallb_forall in Hall. specialize (Hall _ (Hin g0 Hg)).
  rewrite forallb_forall in Hall. exact (Hall _ (Hin b0 Hb)).
Qed.

(** A byte survives the round trip through a number. *)
Lemma ToUint8Clamp_ofZ z : is_u8 z -> Number.ToUint8Clamp (Number.ofZ z) = z.
Proof.
  intros Hz. apply Z.eqb_eq.
  apply (forBytes_spec (fun z => Number.ToUint8Clamp (Number.ofZ z) =? z)); [|done].
  vm_compute. reflexivity.
Qed.

(** [alpha > 0] on a byte read from the array. *)
Lemma ofZ_positive a : is_u8 a -> (0 <? Number.ofZ a)%float = (0 <? a).
Proof.
  intros Ha. apply Bool.eqb_prop.
  apply (forBytes_spec (fun a => Bool.eqb (0 <? Number.ofZ a)%float (0 <? a))); [|done].
  vm_compute. reflexivity.
Qed.

(** A black pixel: luminance 0, intensity 1, and the blend stores the
    target component. *)
Lemma black_intensity :
  intensity (luminance (Number.ofZ 0) (Number.ofZ 0) (Number.ofZ 0)) = 1%float.
Proof. vm_compute. reflexivity. Qed.

Lemma blend_one t : is_u8 t -> Number.ToUint8Clamp (blend (Number.ofZ t) 1) = t.
Proof.
  intros Ht. apply Z.eqb_eq.
  apply (forBytes_spec (fun t => Number.ToUint8Clamp (blend (Number.ofZ t) 1) =? t)); [|done].
  vm_compute. reflexivity.
Qed.

(** A white pixel: luminance 255, intensity 0, and the blend stores 255. *)
Lemma white_intensity :
  intensity (luminance (Number.ofZ 255) (Number.ofZ 255) (Number.ofZ 255)) = 0%float.
Proof. vm_compute. reflexivity. Qed.

Lemma blend_zero t : is_u8 t -> Number.ToUint8Clamp (blend (Number.ofZ t) 0) = 255.
Proof.
  intros Ht. apply Z.eqb_eq.
  apply (forBytes_spec (fun t => Number.ToUint8Clamp (blend (Number.ofZ t) 0) =? 255)); [|done].
  vm_compute. reflexivity.
Qed.

(** Equality of numbers as the comparison [=?] decides it is equality of
    representation on a finite non-zero value. *)
Lemma SFeqb_finite x s m e :
  SFeqb x (S754_finite s m e) = true -> x = S754_finite s m e.
Proof.
  unfold SFeqb, SFcompare.
  destruct x as [s'|s'| |s' m' e']; try done; try (by destruct s').
  all: destruct s', s; try done.
  all: destruct (Z.compare_spec e' e) as [->| |]; try done.
  all: change (PosDef.Pos.compare_cont Eq m' m) with (Pos.compare m' m).
  all: destruct (Pos.compare_spec m' m) as [->| |]; done.
Qed.

Lemma eqb_255 x : (x =? 255)%float = true -> x = 255%float.
Proof.
  rewrite FloatAxioms.eqb_spec. intros Heq. apply Prim2SF_inj.
  change (Prim2SF 255) with (S754_finite false 8972014882652160 (-45)) in *.
  by apply SFeqb_finite.
Qed.

(** The scan of all [256^3] pixels. *)
Lemma pixelScan : forPixels pixelCheck = true.
Proof. vm_compute. reflexivity. Qed.

Lemma pixelCheck_byte r0 g0 b0 :
  is_u8 r0 -> is_u8 g0 -> is_u8 b0 ->
  let k := intensity (luminance (Number.ofZ r0) (Number.ofZ g0) (Number.ofZ b0)) in
  ((0 <=? luminance (Number.ofZ r0) (Number.ofZ g0) (Number.ofZ b0))%float = true /\
   (luminance (Number.ofZ r0) (Number.ofZ g0) (Number.ofZ b0) <=? 255)%float = true /\
   (0 <=? k)%float = true /\ (k <=? 1)%float = true) /\
  ((0 <=? blend 0 k)%float = true /\ (blend 0 k <=? 255)%float = true /\
   blend 255 k = 255%float) /\
  (isZero k = true \/
   (normalIn 0x1p-12 1 k = true /\
    isZero (255 * (1 - k)) || normalIn 0x1p-4 255 (255 * (1 - k)) = true)).
Proof.
  intros Hr Hg Hb k.
  pose proof (forPixels_spec _ pixelScan r0 g0 b0 Hr Hg Hb) as Hchk.
  unfold pixelCheck in Hchk. cbn zeta in Hchk. fold k in Hchk.
  rewrite !andb_true_iff, orb_true_iff, andb_true_iff in Hchk.
  destruct Hchk as [[[[[[[H1 H2] H3] H4] H5] H6] H7] H8].
  repeat split; try done. by apply eqb_255.
Qed.

(** With the white target the blend is 255 exactly, for every pixel. *)
Lemma blend_white r0 g0 b0 :
  is_u8 r0 -> is_u8 g0 -> is_u8 b0 ->
  blend (Number.ofZ 255)
    (intensity (luminance (Number.ofZ r0) (Number.ofZ g0) (Number.ofZ b0))) = 255%float.
Proof.
  intros Hr Hg Hb. by destruct (pixelCheck_byte r0 g0 b0 Hr Hg Hb) as (_ & (_ & _ & Hw) & _).
Qed.

(** A positive byte is a normal number between 1 and 255. *)
Lemma byte_normal t : is_u8 t -> t <> 0 -> normalIn 1 255 (Number.ofZ t) = true.
Proof.
  intros Ht Hne.
  pose proof (forBytes_spec (fun t => (t =? 0) || normalIn 1 255 (Number.ofZ t))) as Hall.
  cbn beta in Hall. specialize (Hall ltac:(vm_compute; reflexivity) t Ht).
  apply orb_true_iff in Hall as [Hz|Hn]; [|done]. apply Z.eqb_eq in Hz. done.
Qed.

Lemma byte_le_255 t : is_u8 t -> (Number.ofZ t <=? 255)%float = true.
Proof.
  apply (forBytes_spec (fun t => (Number.ofZ t <=? 255)%float)). vm_compute. reflexivity.
Qed.

(** At intensity [+0] the blend is in range for every target component. *)
Lemma blend_zero_range t :
  is_u8 t ->
  (0 <=? blend (Number.ofZ t) 0)%float = true /\
  (blend (Number.ofZ t) 0 <=? 255)%float = true.
Proof.
  intros Ht. apply andb_true_iff.
  apply (forBytes_spec
           (fun t => (0 <=? blend (Number.ofZ t) 0)%float
                     && (blend (Number.ofZ t) 0 <=? 255)%float)); [|done].
  vm_compute. reflexivity.
Qed.

(** A number between 0 and 255 is not clamped: [ToUint8Clamp] only rounds
    it. *)
Lemma ToUint8Clamp_in_range x :
  (0 <=? x)%float = true -> (x <=? 255)%float = true ->
  Number.ToUint8Clamp x = Number.roundTiesToEven x.
Proof.
  rewrite !leb_spec. intros Hlo Hhi. pose proof (Prim2SF_valid x) as Hv.
  unfold Number.ToUint8Clamp, Number.roundTiesToEven.
  change (Prim2SF 0) with (S754_zero false) in Hlo.
  change (Prim2SF 255) with (S754_finite false 8972014882652160 (-45)) in Hhi.
  destruct (Prim2SF x) as [[]|[]| |[] m e]; try done.
  apply SFleb_finite in Hhi. unfold le_pair in Hhi. cbn [fst snd] in Hhi.
  cbn [valid_binary] in Hv. unfold bounded, canonical_mantissa in Hv.
  apply andb_true_iff in Hv as [Hc _]. apply Z.eqb_eq in Hc.
  unfold fexp, SpecFloat.emin, prec, emax in Hc.
  pose proof (digits_bounds m) as [_ Hm].
  assert (2 ^ Z.pos (digits2_pos m) <= 2 ^ 53) by (apply Z.pow_le_mono_r; lia).
  destruct (Z.leb_spec 0 e); [lia|]. cbn zeta.
  destruct (Z.leb_spec (255 * 2 ^ (- e)) (Z.pos m)) as [Hbig|]; [|done].
  destruct (Z.eq_dec e (-45)) as [->|Hne].
  - change (2 ^ (- (-45))) with 35184372088832 in *.
    assert (Z.pos m = 255 * 35184372088832) as -> by lia. reflexivity.
  - assert (2 ^ 46 <= 2 ^ (- e)) by (apply Z.pow_le_mono_r; lia).
    change (2 ^ 53) with (128 * 2 ^ 46) in *. lia.
Qed.

(** ** The recolouring transform *)

(** C1. A pure black pixel ([r = g = b = 0]) with a positive alpha takes the
    target colour exactly in its three colour channels, for every target
    colour: its intensity (the blend weight) is 1.  The alpha is kept. *)
Theorem black_pixel_takes_target (d : list Z) (p : nat) (a tr tg tb : Z) :
  pixelAt d p = Some (0, 0, 0, a) -> 0 < a <= 255 ->
  is_u8 tr -> is_u8 tg -> is_u8 tb ->
  intensity (luminance (Number.ofZ 0) (Number.ofZ 0) (Number.ofZ 0)) = 1%float /\
  pixelAt (recolor (rgbOfBytes tr tg tb) d) p = Some (tr, tg, tb, a).
Proof.
  intros Hpx Ha Hr Hg Hb. split; [apply black_intensity|].
  rewrite (recolor_pixel _ _ _ _ Hpx). unfold recolorPixel.
  rewrite ofZ_positive by (unfold is_u8; lia).
  destruct (Z.ltb_spec 0 a); [|lia].
  rewrite black_intensity. cbn [r g b rgbOfBytes].
  by rewrite !blend_one.
Qed.

Lemma black_pixel_takes_target_witness :
  intensity (luminance (Number.ofZ 0) (Number.ofZ 0) (Number.ofZ 0)) = 1%float /\
  pixelAt (recolor (rgbOfBytes 74 222 128) [9; 9; 9; 0; 0; 0; 0; 200]) 1
  = Some (74, 222, 128, 200).
Proof.
  apply (black_pixel_takes_target [9; 9; 9; 0; 0; 0; 0; 200] 1 200 74 222 128);
    [reflexivity | lia | unfold is_u8; lia | unfold is_u8; lia | unfold is_u8; lia].
Defined.

(** C2. A pure white pixel ([r = g = b = 255]) with a positive alpha comes
    out white, whatever the target colour: its intensity is 0. *)
Theorem white_pixel_stays_white (d : list Z) (p : nat) (a tr tg tb : Z) :
  pixelAt d p = Some (255, 255, 255, a) -> 0 < a <= 255 ->
  is_u8 tr -> is_u8 tg -> is_u8 tb ->
  intensity (luminance (Number.ofZ 255) (Number.ofZ 255) (Number.ofZ 255)) = 0%float /\
  pixelAt (recolor (rgbOfBytes tr tg tb) d) p = Some (255, 255, 255, a).
Proof.
  intros Hpx Ha Hr Hg Hb. split; [apply white_intensity|].
  rewrite (recolor_pixel _ _ _ _ Hpx). unfold recolorPixel.
  rewrite ofZ_positive by (unfold is_u8; lia).
  destruct (Z.ltb_spec 0 a); [|lia].
  rewrite white_intensity. cbn [r g b rgbOfBytes].
  by rewrite !blend_zero.
Qed.

Lemma white_pixel_stays_white_witness :
  intensity (luminance (Number.ofZ 255) (Number.ofZ 255) (Number.ofZ 255)) = 0%float /\
  pixelAt (recolor (rgbOfBytes 74 222 128) [255; 255; 255; 1]) 0
  = Some (255, 255, 255, 1).
Proof.
  apply (white_pixel_stays_white [255; 255; 255; 1] 0 1 74 222 128);
    [reflexivity | lia | unfold is_u8; lia | unfold is_u8; lia | unfold is_u8; lia].
Defined.

(** C3. A pixel whose alpha is 0 keeps its four channels, for every target
    colour. *)
Theorem transparent_pixel_unchanged (c : rgb) (d : list Z) (p : nat) (r0 g0 b0 : Z) :
  pixelAt d p = Some (r0, g0, b0, 0) ->
  pixelAt (recolor c d) p = Some (r0, g0, b0, 0).
Proof.
  intros Hpx. rewrite (recolor_pixel _ _ _ _ Hpx). reflexivity.
Qed.

Lemma transparent_pixel_unchanged_witness :
  pixelAt (recolor (rgbOfBytes 74 222 128) [1; 2; 3; 255; 12; 34; 56; 0]) 1
  = Some (12, 34, 56, 0).
Proof.
  apply (transparent_pixel_unchanged (rgbOfBytes 74 222 128)
           [1; 2; 3; 255; 12; 34; 56; 0] 1 12 34 56).
  reflexivity.
Defined.

(** C4. The transform keeps the width and the height of the image, the
    length of its buffer and every alpha value; an element that changes is
    a colour channel of a pixel whose alpha is not zero. *)
Theorem recolor_preserves_frame (c : rgb) (imageData : ImageData) :
  width (recolorImageData c imageData) = width imageData /\
  height (recolorImageData c imageData) = height imageData /\
  length (data (recolorImageData c imageData)) = length (data imageData) /\
  (forall j : nat, (j mod 4 = 3)%nat ->
     data (recolorImageData c imageData) !! j = data imageData !! j) /\
  (forall j : nat,
     data (recolorImageData c imageData) !! j <> data imageData !! j ->
     (j mod 4 <> 3)%nat /\
     exists a, data imageData !! (4 * (j / 4) + 3)%nat = Some a /\ a <> 0).
Proof.
  cbn [recolorImageData width height data].
  split; [done|]. split; [done|]. split; [apply recolor_length|].
  split.
  - intros j Hj.
    destruct (decide (recolor c (data imageData) !! j = data imageData !! j)) as [|Hne];
      [done|].
    apply recolor_changed in Hne as [Hmod _]. done.
  - apply recolor_changed.
Qed.

(** C9. The transform is not idempotent: a second pass with the same target
    colour changes the result of the first. *)
Theorem recolor_not_idempotent :
  exists (d : list Z) (tr tg tb : Z),
    is_u8 tr /\ is_u8 tg /\ is_u8 tb /\ Forall is_u8 d /\
    recolor (rgbOfBytes tr tg tb) (recolor (rgbOfBytes tr tg tb) d)
    <> recolor (rgbOfBytes tr tg tb) d.
Proof.
  exists [0; 0; 0; 255], 255, 0, 0.
  repeat split; try (unfold is_u8; lia).
  - repeat constructor; unfold is_u8; lia.
  - vm_compute. discriminate.
Qed.

(** C10. With the white target every pixel with a positive alpha comes out
    white: the blend of 255 with 255 is 255 at every intensity that a pixel
    can have. *)
Theorem white_target_erases (d : list Z) (p : nat) (r0 g0 b0 a : Z) :
  pixelAt d p = Some (r0, g0, b0, a) ->
  is_u8 r0 -> is_u8 g0 -> is_u8 b0 -> 0 < a <= 255 ->
  pixelAt (recolor (rgbOfBytes 255 255 255) d) p = Some (255, 255, 255, a).
Proof.
  intros Hpx Hr Hg Hb Ha.
  rewrite (recolor_pixel _ _ _ _ Hpx). unfold recolorPixel.
  rewrite ofZ_positive by (unfold is_u8; lia).
  destruct (Z.ltb_spec 0 a); [|lia].
  cbn [r g b rgbOfBytes]. rewrite blend_white by done.
  reflexivity.
Qed.

Lemma white_target_erases_witness :
  pixelAt (recolor (rgbOfBytes 255 255 255) [10; 200; 77; 128]) 0
  = Some (255, 255, 255, 128).
Proof.
  apply (white_target_erases [10; 200; 77; 128] 0 10 200 77 128);
    [reflexivity | unfold is_u8; lia | unfold is_u8; lia | unfold is_u8; lia | lia].
Defined.

(** ** The colour parser *)

Ltac each_ascii ch :=
  destruct ch as [[] [] [] [] [] [] [] []];
  vm_compute; try reflexivity; try discriminate.

(** The class [[a-f\d]] under [ignoreCase] is the set of hexadecimal
    digits. *)
Lemma inClass_hex ch :
  RegExp.inClass true [("a"%char, "f"%char); ("0"%char, "9"%char)] ch = isHexDigit ch.
Proof. each_ascii ch. Qed.

Lemma canonical_hash ch :
  Ascii.eqb (RegExp.canonicalize true "#") (RegExp.canonicalize true ch) = Ascii.eqb ch "#".
Proof. each_ascii ch. Qed.

Lemma hash_not_hex ch : Ascii.eqb ch "#" = true -> isHexDigit ch = false.
Proof. each_ascii ch. Qed.

Lemma isHexDigit_existsb ch : existsb (Ascii.eqb ch) hexDigits = isHexDigit ch.
Proof. each_ascii ch. Qed.

Lemma isHexDigit_elem ch : isHexDigit ch = true -> In ch hexDigits.
Proof.
  rewrite <- isHexDigit_existsb, existsb_exists.
  intros (x & Hin & Heq). apply Ascii.eqb_eq in Heq. by subst.
Qed.

(** The pattern starts with [^]: no attempt after index 0 succeeds. *)
Lemma execFrom_Bol attempts n re input i :
  RegExp.execFrom attempts true n (RegExp.Seq RegExp.Bol re) input (S i) = None.
Proof.
  revert i. induction attempts as [|attempts IH]; intros i; simpl; [done|]. apply IH.
Qed.

Ltac hex_tests :=
  repeat match goal with
    | |- context [Ascii.eqb ?a "#"] =>
        let Hh := fresh "Hh" in
        destruct (Ascii.eqb a "#") eqn:Hh; [rewrite ?(hash_not_hex _ Hh)|]
    | |- context [isHexDigit ?a] => destruct (isHexDigit a)
    end.

(** The attempt at index 0, by cases on the length of the input. *)
Lemma matcher_hexPattern (l : list ascii) :
  RegExp.matcher true l hexPattern 0 (replicate 4 None)
    (fun j caps => Some (<[0%nat := Some (RegExp.slice l 0 j)]> caps))
  = hexResult l.
Proof.
  unfold hexResult, stripHash, hexPattern, hexDigitClass.
  do 8 (try destruct l as [|? l]).
  all: cbn -[RegExp.inClass RegExp.canonicalize Ascii.eqb isHexDigit].
  all: rewrite ?inClass_hex, ?canonical_hash.
  all: hex_tests; try reflexivity.
  all: destruct l; reflexivity.
Qed.

Lemma exec_hexPattern (s : string) :
  RegExp.exec true 3 hexPattern s = hexResult (list_ascii_of_string s).
Proof.
  unfold RegExp.exec. cbn [RegExp.execFrom].
  change (replicate 4 None) with (@replicate (option (list ascii)) 4 None).
  rewrite matcher_hexPattern.
  destruct (hexResult _); [done|]. apply execFrom_Bol.
Qed.

Ltac each_hex H := simpl in H; repeat destruct H as [<-|H]; [..|destruct H].

(** [parseInt] on a pair of hexadecimal digits: nothing is trimmed, there is
    no sign and no [0x] prefix, and both characters are digits. *)
Lemma parseInt_pair c1 c2 :
  isHexDigit c1 = true -> isHexDigit c2 = true ->
  parseInt [c1; c2] 16 = Number.ofZ (pairValue c1 c2).
Proof.
  intros H1 H2. apply isHexDigit_elem in H1, H2.
  each_hex H1; each_hex H2; vm_compute; reflexivity.
Qed.

Lemma toHex2_pair c1 c2 :
  isHexDigit c1 = true -> isHexDigit c2 = true ->
  toHex2 (Number.ofZ (pairValue c1 c2)) = [RegExp.toUpperCase c1; RegExp.toUpperCase c2].
Proof.
  intros H1 H2. apply isHexDigit_elem in H1, H2.
  each_hex H1; each_hex H2; vm_compute; reflexivity.
Qed.

Lemma pairValue_byte c1 c2 :
  isHexDigit c1 = true -> isHexDigit c2 = true -> is_u8 (pairValue c1 c2).
Proof.
  intros H1 H2. apply isHexDigit_elem in H1, H2.
  each_hex H1; each_hex H2; vm_compute; split; discriminate.
Qed.

(** [hexToRgb] accepts exactly the strings of the pattern and returns the
    colour that their digits denote. *)
Lemma hexToRgb_spec (s : string) :
  hexToRgb s =
  if matchesColorPattern s then colorOfDigits (stripHash (list_ascii_of_string s))
  else None.
Proof.
  unfold hexToRgb. rewrite exec_hexPattern.
  unfold hexResult, matchesColorPattern, colorOfDigits.
  destruct (stripHash _) as [|c1 [|c2 [|c3 [|c4 [|c5 [|c6 [|c7 t]]]]]]]; try done.
  cbn [length Nat.eqb andb].
  destruct (forallb isHexDigit _) eqn:Hall; [|done].
  cbn [forallb] in Hall. rewrite !andb_true_iff in Hall.
  destruct Hall as (H1 & H2 & H3 & H4 & H5 & H6 & _).
  unfold capture, rgbOfBytes. cbn [lookup list_lookup].
  by rewrite !parseInt_pair.
Qed.

(** X8. Every colour that [hexToRgb] returns has byte components: each is
    the number of an integer of [0,255]. *)
Lemma hexToRgb_bytes (s : string) (c : rgb) :
  hexToRgb s = Some c ->
  exists tr tg tb, is_u8 tr /\ is_u8 tg /\ is_u8 tb /\ c = rgbOfBytes tr tg tb.
Proof.
  rewrite hexToRgb_spec. unfold matchesColorPattern, colorOfDigits.
  destruct (stripHash _) as [|c1 [|c2 [|c3 [|c4 [|c5 [|c6 [|c7 t]]]]]]];
    try (by destruct (_ && _)).
  cbn [length Nat.eqb andb].
  destruct (forallb isHexDigit _) eqn:Hall; [|done].
  cbn [forallb] in Hall. rewrite !andb_true_iff in Hall.
  destruct Hall as (H1 & H2 & H3 & H4 & H5 & H6 & _).
  intros [= <-].
  exists (pairValue c1 c2), (pairValue c3 c4), (pairValue c5 c6).
  repeat split; by apply pairValue_byte.
Qed.

(** C6. A string of the pattern [^#?[0-9a-fA-F]{6}$] is parsed: the pairs of
    digits 1-2, 3-4 and 5-6 are the red, green and blue components, read in
    base 16, and printing the colour as six upper-case digits gives back
    the string in upper case, without its [#]. *)
Theorem hexToRgb_roundtrip (s : string) :
  matchesColorPattern s = true ->
  exists c1 c2 c3 c4 c5 c6 c,
    stripHash (list_ascii_of_string s) = [c1; c2; c3; c4; c5; c6] /\
    hexToRgb s = Some c /\
    c = rgbOfBytes (pairValue c1 c2) (pairValue c3 c4) (pairValue c5 c6) /\
    is_u8 (pairValue c1 c2) /\ is_u8 (pairValue c3 c4) /\ is_u8 (pairValue c5 c6) /\
    colorToHex c = RegExp.toUpperCase <$> stripHash (list_ascii_of_string s).
Proof.
  intros Hm. rewrite hexToRgb_spec, Hm.
  unfold matchesColorPattern in Hm. apply andb_true_iff in Hm as [Hlen Hall].
  destruct (stripHash _) as [|c1 [|c2 [|c3 [|c4 [|c5 [|c6 [|c7 t]]]]]]]; try done.
  cbn [forallb] in Hall. rewrite !andb_true_iff in Hall.
  destruct Hall as (H1 & H2 & H3 & H4 & H5 & H6 & _).
  exists c1, c2, c3, c4, c5, c6. eexists. split; [done|]. split; [done|].
  split; [done|]. repeat (split; [by apply pairValue_byte|]).
  unfold colorToHex, rgbOfBytes. cbn [r g b]. by rewrite !toHex2_pair.
Qed.

Lemma hexToRgb_roundtrip_witness :
  exists c1 c2 c3 c4 c5 c6 c,
    stripHash (list_ascii_of_string "#4aDe80") = [c1; c2; c3; c4; c5; c6] /\
    hexToRgb "#4aDe80" = Some c /\
    c = rgbOfBytes (pairValue c1 c2) (pairValue c3 c4) (pairValue c5 c6) /\
    is_u8 (pairValue c1 c2) /\ is_u8 (pairValue c3 c4) /\ is_u8 (pairValue c5 c6) /\
    colorToHex c = RegExp.toUpperCase <$> stripHash (list_ascii_of_string "#4aDe80").
Proof. apply (hexToRgb_roundtrip "#4aDe80"). reflexivity. Defined.

(** C7. A string that is not of the pattern is refused by [hexToRgb], and
    [processImage] with such a selected colour starts no image load, so the
    pixel loop is never reached; when there is an image and a canvas it
    reports the invalid colour format and clears the loading flag. *)
Theorem malformed_color_rejected (s : string) :
  matchesColorPattern s = false ->
  hexToRgb s = None /\
  forall (canvasPresent contextPresent : bool) (st : AppState),
    selectedColor st = s ->
    (processImage canvasPresent contextPresent st).2 = None /\
    (truthy (originalImage st) = true -> canvasPresent = true ->
     error (processImage canvasPresent contextPresent st).1
       = Some "Invalid color format."%string /\
     isLoading (processImage canvasPresent contextPresent st).1 = false).
Proof.
  intros Hm.
  assert (hexToRgb s = None) as Hnone by (by rewrite hexToRgb_spec, Hm).
  split; [done|]. intros cp xp st <-. unfold processImage.
  destruct (truthy (originalImage st)), cp; cbn -[hexToRgb]; try done;
    rewrite Hnone; destruct xp; split; try done.
Qed.

Lemma malformed_color_rejected_witness :
  hexToRgb "#fff" = None /\
  forall (canvasPresent contextPresent : bool) (st : AppState),
    selectedColor st = "#fff"%string ->
    (processImage canvasPresent contextPresent st).2 = None /\
    (truthy (originalImage st) = true -> canvasPresent = true ->
     error (processImage canvasPresent contextPresent st).1
       = Some "Invalid color format."%string /\
     isLoading (processImage canvasPresent contextPresent st).1 = false).
Proof. apply (malformed_color_rejected "#fff"). reflexivity. Defined.

(** Strings of the wrong length, with a character that is no digit, and the
    empty string. *)
Example hexToRgb_malformed :
  hexToRgb "#fff" = None /\ hexToRgb "#12345g" = None /\ hexToRgb "" = None /\
  hexToRgb "#1234567" = None /\ hexToRgb "red" = None /\ hexToRgb " #4ade80" = None.
Proof. vm_compute. repeat split. Qed.

Example hexToRgb_default : hexToRgb "#4ade80" = Some (rgbOfBytes 74 222 128).
Proof. vm_compute. reflexivity. Qed.

(** ** The file input *)

(** Against C5 as written: with a result on display, a JPEG upload does not
    leave the displayed result (nor the loaded original) as it was. *)
Lemma unsupported_type_result_not_kept :
  type jpegFile <> "image/png"%string /\
  processedImage (handleFileChange (Some jpegFile) shownState).1
    <> processedImage shownState /\
  originalImage (handleFileChange (Some jpegFile) shownState).1
    <> originalImage shownState.
Proof. repeat split; discriminate. Qed.

(** C5, amended. A file whose declared type is not [image/png] is refused
    with the message asking for a PNG file and no read (hence no decode) is
    started; the loaded original and the displayed result are both cleared,
    the selected colour and the loading flag are kept, and [processImage]
    has nothing to do in the new state. *)
Theorem unsupported_type_rejected (f : File) (st : AppState) :
  type f <> "image/png"%string ->
  error (handleFileChange (Some f) st).1 = Some "Please upload a valid PNG file."%string /\
  (handleFileChange (Some f) st).2 = None /\
  originalImage (handleFileChange (Some f) st).1 = None /\
  processedImage (handleFileChange (Some f) st).1 = None /\
  selectedColor (handleFileChange (Some f) st).1 = selectedColor st /\
  isLoading (handleFileChange (Some f) st).1 = isLoading st /\
  forall canvasPresent contextPresent : bool,
    processImage canvasPresent contextPresent (handleFileChange (Some f) st).1
    = ((handleFileChange (Some f) st).1, None).
Proof.
  intros Hty. unfold handleFileChange.
  destruct (String.eqb_spec (type f) "image/png") as [Heq|_]; [done|].
  repeat split.
Qed.

Lemma unsupported_type_rejected_witness :
  error (handleFileChange (Some jpegFile) shownState).1
    = Some "Please upload a valid PNG file."%string /\
  (handleFileChange (Some jpegFile) shownState).2 = None /\
  originalImage (handleFileChange (Some jpegFile) shownState).1 = None /\
  processedImage (handleFileChange (Some jpegFile) shownState).1 = None /\
  selectedColor (handleFileChange (Some jpegFile) shownState).1 = selectedColor shownState /\
  isLoading (handleFileChange (Some jpegFile) shownState).1 = isLoading shownState /\
  forall canvasPresent contextPresent : bool,
    processImage canvasPresent contextPresent (handleFileChange (Some jpegFile) shownState).1
    = ((handleFileChange (Some jpegFile) shownState).1, None).
Proof. apply (unsupported_type_rejected jpegFile shownState). discriminate. Defined.

(** A PNG upload starts a read and clears the message; the images change
    only when the read completes. *)
Lemma png_accepted (f : File) (st : AppState) :
  type f = "image/png"%string ->
  handleFileChange (Some f) st = (setError None st, Some f).
Proof. intros Hty. unfold handleFileChange. by rewrite Hty. Qed.

(** ** The range of the blend *)

(** C8. For every pixel and every target component, all bytes: the
    luminance lies in [0,255], the intensity in [0,1] and the blend in
    [0,255], as binary64 numbers compare; so the store does not clamp the
    blend, it only rounds it. *)
Theorem blend_in_range (r0 g0 b0 t : Z) :
  is_u8 r0 -> is_u8 g0 -> is_u8 b0 -> is_u8 t ->
  (0 <=? luminance (Number.ofZ r0) (Number.ofZ g0) (Number.ofZ b0))%float = true /\
  (luminance (Number.ofZ r0) (Number.ofZ g0) (Number.ofZ b0) <=? 255)%float = true /\
  (0 <=? intensity (luminance (Number.ofZ r0) (Number.ofZ g0) (Number.ofZ b0)))%float = true /\
  (intensity (luminance (Number.ofZ r0) (Number.ofZ g0) (Number.ofZ b0)) <=? 1)%float = true /\
  (0 <=? blend (Number.ofZ t)
           (intensity (luminance (Number.ofZ r0) (Number.ofZ g0) (Number.ofZ b0))))%float
    = true /\
  (blend (Number.ofZ t)
     (intensity (luminance (Number.ofZ r0) (Number.ofZ g0) (Number.ofZ b0))) <=? 255)%float
    = true /\
  Number.ToUint8Clamp
    (blend (Number.ofZ t)
       (intensity (luminance (Number.ofZ r0) (Number.ofZ g0) (Number.ofZ b0))))
  = Number.roundTiesToEven
      (blend (Number.ofZ t)
         (intensity (luminance (Number.ofZ r0) (Number.ofZ g0) (Number.ofZ b0)))).
Proof.
  intros Hr Hg Hb Ht.
  destruct (pixelCheck_byte r0 g0 b0 Hr Hg Hb)
    as ((Hl0 & Hl1 & Hk0 & Hk1) & (Hb0 & Hb1 & Hw) & Hkind).
  set (k := intensity (luminance (Number.ofZ r0) (Number.ofZ g0) (Number.ofZ b0))) in *.
  cbn zeta in Hkind.
  assert ((0 <=? blend (Number.ofZ t) k)%float = true /\
          (blend (Number.ofZ t) k <=? 255)%float = true) as [Hlo Hhi].
  { destruct Hkind as [Hz|[Hk Hwhite]].
    - apply isZero_spec in Hz. rewrite Hz. by apply blend_zero_range.
    - destruct (Z.eq_dec t 0) as [->|Hne]; [done|].
      rewrite <- Hw.
      apply (blend_monotone (Number.ofZ t) 255 k); try done.
      + by apply byte_normal.
      + by apply byte_le_255. }
  repeat split; try done. by apply ToUint8Clamp_in_range.
Qed.

Lemma blend_in_range_witness :
  (0 <=? luminance (Number.ofZ 10) (Number.ofZ 200) (Number.ofZ 77))%float = true /\
  (luminance (Number.ofZ 10) (Number.ofZ 200) (Number.ofZ 77) <=? 255)%float = true /\
  (0 <=? intensity (luminance (Number.ofZ 10) (Number.ofZ 200) (Number.ofZ 77)))%float = true /\
  (intensity (luminance (Number.ofZ 10) (Number.ofZ 200) (Number.ofZ 77)) <=? 1)%float = true /\
  (0 <=? blend (Number.ofZ 74)
           (intensity (luminance (Number.ofZ 10) (Number.ofZ 200) (Number.ofZ 77))))%float
    = true /\
  (blend (Number.ofZ 74)
     (intensity (luminance (Number.ofZ 10) (Number.ofZ 200) (Number.ofZ 77))) <=? 255)%float
    = true /\
  Number.ToUint8Clamp
    (blend (Number.ofZ 74)
       (intensity (luminance (Number.ofZ 10) (Number.ofZ 200) (Number.ofZ 77))))
  = Number.roundTiesToEven
      (blend (Number.ofZ 74)
         (intensity (luminance (Number.ofZ 10) (Number.ofZ 200) (Number.ofZ 77)))).
Proof.
  apply (blend_in_range 10 200 77 74); unfold is_u8; lia.
Defined.

(** ** Worked examples *)

(** The stores round to the nearest integer, ties to even, and clamp. *)
Example ToUint8Clamp_examples :
  Number.ToUint8Clamp <$> [0.5; 1.5; 2.5; 76.245; 254.5; 255.5; 300; -1; nan]%float
  = [0; 2; 2; 76; 254; 255; 255; 0; 0].
Proof. vm_compute. reflexivity. Qed.

(** The scenario of the specification: a 2x1 image with a black and a white
    pixel, recoloured with [#FF0000]. *)
Example recolor_black_and_white :
  (fun c => recolor c [0; 0; 0; 255; 255; 255; 255; 255]) <$> hexToRgb "#FF0000"
  = Some [255; 0; 0; 255; 255; 255; 255; 255].
Proof. vm_compute. reflexivity. Qed.

(** A grey pixel is blended half-way, a transparent one is skipped, and a
    trailing incomplete pixel is left alone. *)
Example recolor_mixed :
  recolor (rgbOfBytes 74 222 128) [128; 128; 128; 255; 1; 2; 3; 0; 9; 9]
  = [165; 239; 192; 255; 1; 2; 3; 0; 9; 9].
Proof. vm_compute. reflexivity. Qed.

(** The whole run on a decoded image: the result is encoded and shown, and
    the loading flag is cleared. *)
Example onload_shows_result :
  onload unit (fun _ => Some (mkImageData 1 1 [0; 0; 0; 255]))
    (fun imageData => if decide (data imageData = [74; 222; 128; 255]) then "ok" else "ko")%string
    (mkLoadRequest "src" (rgbOfBytes 74 222 128)) tt
    (setIsLoading true shownState)
  = setIsLoading false (setProcessedImage (Some "ok"%string) shownState).
Proof. vm_compute. reflexivity. Qed.

(** * Further properties of the code *)

(** ** The pixel loop *)

Lemma pixelAt_None d p : pixelAt d p = None <-> (length d <= 4 * p + 3)%nat.
Proof.
  unfold pixelAt. split.
  - destruct (Nat.le_gt_cases (length d) (4 * p + 3)) as [|Hlt]; [done|].
    destruct (lookup_lt_is_Some_2 d (4 * p)%nat) as [x0 ->]; [lia|].
    destruct (lookup_lt_is_Some_2 d (4 * p + 1)%nat) as [x1 ->]; [lia|].
    destruct (lookup_lt_is_Some_2 d (4 * p + 2)%nat) as [x2 ->]; [lia|].
    destruct (lookup_lt_is_Some_2 d (4 * p + 3)%nat) as [x3 ->]; [lia|].
    done.
  - intros Hlen. rewrite (lookup_ge_None_2 d (4 * p + 3)%nat) by lia.
    by repeat case_match.
Qed.

Lemma recolor_pixel_fmap c d p :
  pixelAt (recolor c d) p = recolorPixel c <$> pixelAt d p.
Proof.
  destruct (pixelAt d p) as [px|] eqn:Hpx.
  - by apply recolor_pixel.
  - apply pixelAt_None. rewrite recolor_length. by apply pixelAt_None.
Qed.

(** X1. No pixel depends on another, nor on its position: two pixels with
    the same four channels, anywhere in any two buffers, get the same four
    channels from the same target colour. *)
Theorem recolor_pixelwise (c : rgb) (d d' : list Z) (p p' : nat) :
  pixelAt d p = pixelAt d' p' ->
  pixelAt (recolor c d) p = pixelAt (recolor c d') p'.
Proof. intros Heq. by rewrite !recolor_pixel_fmap, Heq. Qed.

Lemma recolor_pixelwise_witness :
  pixelAt (recolor (rgbOfBytes 74 222 128) [10; 20; 30; 255; 1; 2; 3; 4]) 0
  = pixelAt (recolor (rgbOfBytes 74 222 128) [0; 0; 0; 0; 9; 9; 9; 9; 10; 20; 30; 255]) 2.
Proof.
  apply (recolor_pixelwise (rgbOfBytes 74 222 128)
           [10; 20; 30; 255; 1; 2; 3; 4] [0; 0; 0; 0; 9; 9; 9; 9; 10; 20; 30; 255] 0 2).
  reflexivity.
Defined.

(** [ToUint8Clamp] yields a byte, whatever the number. *)
Lemma ToUint8Clamp_byte x : is_u8 (Number.ToUint8Clamp x).
Proof.
  unfold is_u8, Number.ToUint8Clamp.
  destruct (Prim2SF x) as [s|[]| |[] m e]; try lia.
  destruct (Z.leb_spec 0 e).
  - assert (0 < 2 ^ e) by (apply Z.pow_pos_nonneg; lia). nia.
  - cbn zeta. assert (0 < 2 ^ (- e)) as Hd by (apply Z.pow_pos_nonneg; lia).
    set (d := 2 ^ (- e)) in *.
    destruct (Z.leb_spec (255 * d) (Z.pos m)); [lia|].
    assert (0 <= Z.pos m / d) by (apply Z.div_pos; lia).
    assert (Z.pos m / d < 255) by (apply Z.div_lt_upper_bound; lia).
    repeat case_match; lia.
Qed.

Lemma recolorAt_bytes c i d : Forall is_u8 d -> Forall is_u8 (recolorAt c i d).
Proof.
  intros Hd. unfold recolorAt, setNum. case_match; [|done].
  repeat apply Forall_insert; auto using ToUint8Clamp_byte.
Qed.

(** X2. The buffer stays a buffer of bytes: if every element of the input
    lies in [0,255], so does every element of the output, for every target
    colour, even one whose components are not bytes or not numbers. *)
Theorem recolor_bytes (c : rgb) (d : list Z) :
  Forall is_u8 d -> Forall is_u8 (recolor c d).
Proof.
  unfold recolor. generalize (length d) at 1. intros fuel. generalize 0%nat.
  revert d. induction fuel as [|fuel IH]; intros d i Hd; cbn [forLoop]; [done|].
  case_match; [|done]. by apply IH, recolorAt_bytes.
Qed.

Lemma recolor_bytes_witness :
  Forall is_u8 (recolor (mkRgb nan infinity (-3)) [12; 200; 7; 255; 0; 0; 0; 1]).
Proof.
  apply (recolor_bytes (mkRgb nan infinity (-3)) [12; 200; 7; 255; 0; 0; 0; 1]).
  repeat constructor; unfold is_u8; lia.
Defined.

(** X3. The elements after the last complete pixel, when the length of the
    buffer is no multiple of 4, are never written. *)
Theorem recolor_tail_unchanged (c : rgb) (d : list Z) (j : nat) :
  (length d - length d mod 4 <= j)%nat -> recolor c d !! j = d !! j.
Proof.
  intros Hj.
  destruct (decide (recolor c d !! j = d !! j)) as [|Hne]; [done|].
  apply recolor_changed in Hne as [_ (a & Ha & _)].
  apply lookup_lt_Some in Ha.
  pose proof (Nat.div_mod_eq (length d) 4). pose proof (Nat.div_mod_eq j 4).
  pose proof (Nat.mod_upper_bound (length d) 4). pose proof (Nat.mod_upper_bound j 4).
  assert (j / 4 < length d / 4)%nat by (apply Nat.Div0.div_lt_upper_bound; lia).
  lia.
Qed.

Lemma recolor_tail_unchanged_witness :
  recolor (rgbOfBytes 74 222 128) [0; 0; 0; 255; 50; 60; 70] !! 5%nat
  = [0; 0; 0; 255; 50; 60; 70] !! 5%nat.
Proof.
  apply (recolor_tail_unchanged (rgbOfBytes 74 222 128) [0; 0; 0; 255; 50; 60; 70] 5).
  vm_compute. lia.
Defined.

(** X4. The alpha channel only gates the recolouring: two visible pixels
    with the same colour channels get the same colour channels, whatever
    their (positive) alpha values are. *)
Theorem alpha_only_gates (c : rgb) (d d' : list Z) (p p' : nat) (r0 g0 b0 a a' : Z) :
  pixelAt d p = Some (r0, g0, b0, a) -> pixelAt d' p' = Some (r0, g0, b0, a') ->
  0 < a <= 255 -> 0 < a' <= 255 ->
  exists r1 g1 b1,
    pixelAt (recolor c d) p = Some (r1, g1, b1, a) /\
    pixelAt (recolor c d') p' = Some (r1, g1, b1, a').
Proof.
  intros Hpx Hpx' Ha Ha'.
  rewrite (recolor_pixel _ _ _ _ Hpx), (recolor_pixel _ _ _ _ Hpx'). unfold recolorPixel.
  rewrite !ofZ_positive by (unfold is_u8; lia).
  destruct (Z.ltb_spec 0 a); [|lia]. destruct (Z.ltb_spec 0 a'); [|lia].
  by eexists _, _, _.
Qed.

Lemma alpha_only_gates_witness :
  exists r1 g1 b1,
    pixelAt (recolor (rgbOfBytes 74 222 128) [10; 20; 30; 255]) 0 = Some (r1, g1, b1, 255) /\
    pixelAt (recolor (rgbOfBytes 74 222 128) [10; 20; 30; 1]) 0 = Some (r1, g1, b1, 1).
Proof.
  apply (alpha_only_gates (rgbOfBytes 74 222 128) [10; 20; 30; 255] [10; 20; 30; 1]
           0 0 10 20 30 255 1); [reflexivity | reflexivity | lia | lia].
Defined.

(** *** The white target is absorbing *)

Lemma recolorPixel_white_target r0 g0 b0 a :
  is_u8 r0 -> is_u8 g0 -> is_u8 b0 -> 0 < a <= 255 ->
  recolorPixel (rgbOfBytes 255 255 255) (r0, g0, b0, a) = (255, 255, 255, a).
Proof.
  intros Hr Hg Hb Ha. unfold recolorPixel.
  rewrite ofZ_positive by (unfold is_u8; lia). destruct (Z.ltb_spec 0 a); [|lia].
  cbn [r g b rgbOfBytes]. by rewrite blend_white.
Qed.

Lemma recolorPixel_white_pixel tr tg tb a :
  is_u8 tr -> is_u8 tg -> is_u8 tb -> 0 < a <= 255 ->
  recolorPixel (rgbOfBytes tr tg tb) (255, 255, 255, a) = (255, 255, 255, a).
Proof.
  intros Hr Hg Hb Ha. unfold recolorPixel.
  rewrite ofZ_positive by (unfold is_u8; lia). destruct (Z.ltb_spec 0 a); [|lia].
  rewrite white_intensity. cbn [r g b rgbOfBytes]. by rewrite !blend_zero.
Qed.

(** Two buffers with the same pixel [j / 4] have the same element [j]. *)
Lemma pixelAt_lookup d1 d2 j px :
  pixelAt d1 (j / 4) = Some px -> pixelAt d2 (j / 4) = Some px -> d1 !! j = d2 !! j.
Proof.
  rewrite !pixelAt_Some. intros (H0 & H1 & H2 & H3) (H0' & H1' & H2' & H3').
  pose proof (Nat.div_mod_eq j 4) as Hj. pose proof (Nat.mod_upper_bound j 4) as Hm.
  assert (j = 4 * (j / 4) \/ j = 4 * (j / 4) + 1 \/ j = 4 * (j / 4) + 2
          \/ j = 4 * (j / 4) + 3)%nat as Hcases by lia.
  destruct Hcases as [Hc|[Hc|[Hc|Hc]]]; rewrite Hc; congruence.
Qed.

(** X6. Recolouring to white cannot be undone: after a pass with the white
    target, a pass with any target colour changes nothing. *)
Theorem white_is_absorbing (d : list Z) (tr tg tb : Z) :
  Forall is_u8 d -> is_u8 tr -> is_u8 tg -> is_u8 tb ->
  recolor (rgbOfBytes tr tg tb) (recolor (rgbOfBytes 255 255 255) d)
  = recolor (rgbOfBytes 255 255 255) d.
Proof.
  intros Hd Hr Hg Hb. apply list_eq. intros j.
  set (d1 := recolor (rgbOfBytes 255 255 255) d).
  destruct (decide (recolor (rgbOfBytes tr tg tb) d1 !! j = d1 !! j)) as [|Hne]; [done|].
  exfalso. pose proof Hne as Hch.
  apply recolor_changed in Hch as [_ (a & Ha & Ha0)].
  assert (4 * (j / 4) + 3 < length d)%nat as Hlen.
  { apply lookup_lt_Some in Ha. unfold d1 in Ha. by rewrite recolor_length in Ha. }
  destruct (pixelAt d (j / 4)) as [[[[r0 g0] b0] a0]|] eqn:Hpx;
    [|apply pixelAt_None in Hpx; lia].
  pose proof (recolor_pixel (rgbOfBytes 255 255 255) _ _ _ Hpx) as Hpx1. fold d1 in Hpx1.
  apply pixelAt_Some in Hpx as (H0 & H1 & H2 & H3); cbn [fst snd] in *.
  rewrite Forall_lookup in Hd.
  pose proof (Hd _ _ H0). pose proof (Hd _ _ H1). pose proof (Hd _ _ H2).
  pose proof (Hd _ _ H3) as Hbyte.
  assert (a0 = a) as ->.
  { unfold recolorPixel in Hpx1. apply pixelAt_Some in Hpx1 as (_ & _ & _ & Ha1).
    rewrite Ha in Ha1. by destruct (_ <? _)%float; injection Ha1. }
  unfold is_u8 in Hbyte.
  rewrite recolorPixel_white_target in Hpx1 by (done || lia).
  pose proof (recolor_pixel (rgbOfBytes tr tg tb) _ _ _ Hpx1) as Hpx2.
  rewrite recolorPixel_white_pixel in Hpx2 by (done || lia).
  apply Hne. by apply (pixelAt_lookup _ _ _ _ Hpx2 Hpx1).
Qed.

Lemma white_is_absorbing_witness :
  recolor (rgbOfBytes 74 222 128)
    (recolor (rgbOfBytes 255 255 255) [10; 200; 77; 128; 1; 2; 3; 0; 8])
  = recolor (rgbOfBytes 255 255 255) [10; 200; 77; 128; 1; 2; 3; 0; 8].
Proof.
  apply (white_is_absorbing [10; 200; 77; 128; 1; 2; 3; 0; 8] 74 222 128);
    [repeat constructor; unfold is_u8; lia | unfold is_u8; lia ..].
Defined.

(** X7. A fully transparent image is left as it is: if every alpha value of
    the buffer is 0, the output is the input, for every target colour. *)
Theorem transparent_image_unchanged (c : rgb) (d : list Z) :
  (forall p : nat, d !! (4 * p + 3)%nat = None \/ d !! (4 * p + 3)%nat = Some 0) ->
  recolor c d = d.
Proof.
  intros Halpha. apply list_eq. intros j.
  destruct (decide (recolor c d !! j = d !! j)) as [|Hne]; [done|].
  apply recolor_changed in Hne as [_ (a & Ha & Ha0)].
  destruct (Halpha (j / 4)%nat) as [Hn|Hz]; congruence.
Qed.

Lemma transparent_image_unchanged_witness :
  recolor (rgbOfBytes 74 222 128) [10; 20; 30; 0; 200; 100; 50; 0; 7]
  = [10; 20; 30; 0; 200; 100; 50; 0; 7].
Proof.
  apply (transparent_image_unchanged (rgbOfBytes 74 222 128)
           [10; 20; 30; 0; 200; 100; 50; 0; 7]).
  intros [|[|p]]; [right; reflexivity | right; reflexivity |].
  left. apply lookup_ge_None_2. simpl. lia.
Defined.

(** *** The transform is monotone in the target colour *)

(** A valid [m * 2^e] has at most 53 digits, exactly 53 above the least
    exponent. *)
Lemma valid_finite s m e :
  valid_binary (S754_finite s m e) = true ->
  Z.pos m < 2 ^ 53 /\ -1074 <= e /\ (-1074 < e -> 2 ^ 52 <= Z.pos m).
Proof.
  cbn [valid_binary]. unfold bounded, canonical_mantissa.
  intros Hv. apply andb_true_iff in Hv as [Hc _]. apply Z.eqb_eq in Hc.
  unfold fexp, SpecFloat.emin, prec, emax in Hc.
  pose proof (digits_bounds m) as [Hlo Hhi]. split; [|split].
  - assert (2 ^ Z.pos (digits2_pos m) <= 2 ^ 53) by (apply Z.pow_le_mono_r; lia). lia.
  - lia.
  - intros He. assert (Z.pos (digits2_pos m) = 53) as Hd by lia.
    rewrite Hd in Hlo. by change (53 - 1) with 52 in Hlo.
Qed.

Lemma le_pair_value_valid m1 e1 m2 e2 S :
  0 < m1 < 2 ^ 53 -> (e1 < e2 -> 2 ^ 52 <= m2) -> S <= e1 -> S <= e2 ->
  le_pair (m1, e1) (m2, e2) -> m1 * 2 ^ (e1 - S) <= m2 * 2 ^ (e2 - S).
Proof.
  intros Hm1 Hm2 HS1 HS2 Hle. unfold le_pair in Hle. cbn [fst snd] in Hle.
  destruct Hle as [Hlt|[-> Hle]].
  - specialize (Hm2 Hlt).
    replace (e2 - S) with (e2 - e1 - 1 + 1 + (e1 - S)) by lia.
    rewrite !Z.pow_add_r by lia. change (2 ^ 1) with 2.
    assert (0 < 2 ^ (e1 - S)) by (apply Z.pow_pos_nonneg; lia).
    assert (0 < 2 ^ (e2 - e1 - 1)) by (apply Z.pow_pos_nonneg; lia).
    set (P := 2 ^ (e1 - S)) in *. set (Q := 2 ^ (e2 - e1 - 1)) in *.
    assert (m1 * P <= 2 ^ 53 * P) by nia.
    assert (2 ^ 53 * P <= m2 * 2 * P) by nia.
    assert (m2 * 2 * P <= m2 * (Q * 2 * P)) by nia.
    lia.
  - assert (0 < 2 ^ (e2 - S)) by (apply Z.pow_pos_nonneg; lia). nia.
Qed.

(** Below exponent 0 the rounding of [ToUint8Clamp] is [rne]. *)
Lemma roundTiesToEven_rne x m e :
  Prim2SF x = S754_finite false m e -> e < 0 ->
  Number.roundTiesToEven x = rne (Z.pos m) (- e).
Proof.
  intros Hx He. unfold Number.roundTiesToEven, rne. rewrite Hx.
  destruct (Z.leb_spec 0 e); [lia|]. cbn zeta.
  assert (0 < 2 ^ (- e)) as Hd by (apply Z.pow_pos_nonneg; lia).
  pose proof (Z.div_mod (Z.pos m) (2 ^ (- e))) as Hdm.
  pose proof (Z.mod_pos_bound (Z.pos m) (2 ^ (- e)) Hd) as Hrem.
  set (d := 2 ^ (- e)) in *. set (q := Z.pos m / d) in *. set (rem := Z.pos m mod d) in *.
  repeat match goal with
    | |- context [?a <? ?b] => destruct (Z.ltb_spec a b)
    end; try reflexivity; nia.
Qed.

(** [ToUint8Clamp] is monotone on the numbers between 0 and 255. *)
Lemma ToUint8Clamp_mono x y :
  (0 <=? x)%float = true -> (x <=? 255)%float = true -> (y <=? 255)%float = true ->
  (x <=? y)%float = true ->
  Number.ToUint8Clamp x <= Number.ToUint8Clamp y.
Proof.
  intros Hx0 Hx1 Hy1 Hxy.
  assert ((0 <=? y)%float = true) as Hy0.
  { rewrite leb_spec in *. change (Prim2SF 0) with (S754_zero false) in *.
    destruct (Prim2SF x) as [[]|[]| |[] ? ?], (Prim2SF y) as [[]|[]| |[] ? ?]; done. }
  pose proof (ToUint8Clamp_byte y) as [Hy _].
  rewrite (ToUint8Clamp_in_range x), (ToUint8Clamp_in_range y) in * by done.
  rewrite leb_spec in Hx0, Hx1, Hy1, Hxy.
  change (Prim2SF 0) with (S754_zero false) in Hx0.
  change (Prim2SF 255) with (S754_finite false 8972014882652160 (-45)) in Hx1, Hy1.
  pose proof (Prim2SF_valid x) as Hvx. pose proof (Prim2SF_valid y) as Hvy.
  destruct (Prim2SF x) as [[]|[]| |[] m1 e1] eqn:Ex; try done.
  - unfold Number.roundTiesToEven at 1. by rewrite Ex.
  - unfold Number.roundTiesToEven at 1. by rewrite Ex.
  - destruct (Prim2SF y) as [[]|[]| |[] m2 e2] eqn:Ey; try done.
    apply SFleb_finite in Hx1, Hy1, Hxy. unfold le_pair in Hx1, Hy1. cbn [fst snd] in *.
    apply valid_finite in Hvx as (Hm1 & Hmin & _). apply valid_finite in Hvy as (_ & _ & Hm2).
    rewrite (roundTiesToEven_rne x m1 e1), (roundTiesToEven_rne y m2 e2) by (done || lia).
    set (S := Z.min e1 e2).
    assert (S <= e1 /\ S <= e2) as [HS1 HS2] by (unfold S; lia).
    rewrite <- (rne_shift (Z.pos m1) (- e1) (e1 - S)) by lia.
    rewrite <- (rne_shift (Z.pos m2) (- e2) (e2 - S)) by lia.
    replace (- e1 + (e1 - S)) with (- S) by lia.
    replace (- e2 + (e2 - S)) with (- S) by lia.
    apply rne_mono; [lia|].
    apply le_pair_value_valid; try done; lia.
Qed.

(** A normal number is its own rounding. *)
Lemma rnd_exact m e : Z.pos (digits2_pos m) = 53 -> rnd (Z.pos m) e = (Z.pos m, e).
Proof.
  intros Hd. pose proof (normal_mantissa m Hd) as Hm.
  unfold rnd, rne. cbn [Zdigits2]. rewrite Hd. change (53 - 53) with 0.
  change (2 ^ 0) with 1. rewrite Z.div_1_r, Z.mod_1_r.
  change (2 * 0 <? 1) with true. cbn iota.
  destruct (Z.eqb_spec (Z.pos m) (2 ^ 53)); [lia|]. f_equal. lia.
Qed.

(** A sum of positive normal numbers is not below its second term. *)
Lemma SFadd_ge lo hi lo' hi' x w :
  normal lo hi x -> normal lo' hi' w ->
  -1000 <= lo -> hi <= 900 -> -1000 <= lo' -> hi' <= 900 ->
  SFleb w (SF64add x w) = true.
Proof.
  intros (m1 & e1 & -> & H1 & He1) (mw & ew & -> & Hw & Hew) Hlo Hhi Hlo' Hhi'.
  destruct (aligned_sum_digits (Z.pos m1) e1 (Z.pos mw) ew
              (normal_mantissa m1 H1) (normal_mantissa mw Hw)) as (Hp & Hd).
  rewrite SFadd_normal by (done || lia).
  replace (S754_finite false mw ew) with (finite (rnd (Z.pos mw) ew))
    by (by rewrite rnd_exact).
  apply SFleb_finite_rnd; cbn [Zdigits2]; try lia.
  apply (rnd_mono _ _ _ _ (Z.min e1 ew)); cbn [Zdigits2]; try lia.
  unfold aligned_sum. rewrite Z.sub_diag. change (2 ^ 0) with 1.
  assert (0 < 2 ^ (e1 - Z.min e1 ew)) by (apply Z.pow_pos_nonneg; lia). nia.
Qed.

Lemma forBytePairs_spec p :
  forBytePairs p = true ->
  forall t t', is_u8 t -> is_u8 t' -> p t (Number.ofZ t) t' (Number.ofZ t') = true.
Proof.
  unfold forBytePairs. intros Hall t t' Ht Ht'.
  assert (forall z, is_u8 z -> In (z, Number.ofZ z) ((fun t => (t, Number.ofZ t)) <$> bytes))
    as Hin.
  { intros z Hz. apply list_elem_of_In, list_elem_of_fmap. exists z. split; [done|].
    apply elem_of_seqZ. unfold is_u8 in Hz. lia. }
  rewrite forallb_forall in Hall. specialize (Hall _ (Hin t Ht)).
  rewrite forallb_forall in Hall. exact (Hall _ (Hin t' Ht')).
Qed.

(** The numbers of two bytes compare as the bytes do. *)
Lemma byte_le t t' :
  is_u8 t -> is_u8 t' -> t <= t' -> (Number.ofZ t <=? Number.ofZ t')%float = true.
Proof.
  intros Ht Ht' Hle.
  pose proof (forBytePairs_spec (fun t x t' x' => implb (t <=? t') (x <=? x')%float)) as Hall.
  cbn beta in Hall. specialize (Hall ltac:(vm_compute; reflexivity) t t' Ht Ht').
  destruct (Z.leb_spec t t'); [done|lia].
Qed.

Lemma blend_at_zero t : is_u8 t -> blend (Number.ofZ t) 0 = 255%float.
Proof.
  intros Ht. apply eqb_255.
  apply (forBytes_spec (fun t => (blend (Number.ofZ t) 0 =? 255)%float)); [|done].
  vm_compute. reflexivity.
Qed.

(** The blend is in range for every pixel and every target byte. *)
Lemma blend_bounds r0 g0 b0 t :
  is_u8 r0 -> is_u8 g0 -> is_u8 b0 -> is_u8 t ->
  (0 <=? blend (Number.ofZ t)
           (intensity (luminance (Number.ofZ r0) (Number.ofZ g0) (Number.ofZ b0))))%float
    = true /\
  (blend (Number.ofZ t)
     (intensity (luminance (Number.ofZ r0) (Number.ofZ g0) (Number.ofZ b0))) <=? 255)%float
    = true.
Proof.
  intros Hr Hg Hb Ht.
  destruct (pixelCheck_byte r0 g0 b0 Hr Hg Hb) as (_ & (Hb0 & Hb1 & Hw) & Hkind).
  set (k := intensity (luminance (Number.ofZ r0) (Number.ofZ g0) (Number.ofZ b0))) in *.
  cbn zeta in Hkind. destruct Hkind as [Hz|[Hk Hwhite]].
  - apply isZero_spec in Hz. rewrite Hz. by apply blend_zero_range.
  - destruct (Z.eq_dec t 0) as [->|Hne]; [done|].
    rewrite <- Hw.
    apply (blend_monotone (Number.ofZ t) 255 k); try done.
    + by apply byte_normal.
    + by apply byte_le_255.
Qed.

(** The blend with the target component 0 is the weight of white. *)
Lemma blend_target_zero k :
  normalIn 0x1p-12 1 k = true ->
  isZero (255 * (1 - k)) || normalIn 0x1p-4 255 (255 * (1 - k)) = true ->
  Prim2SF (blend 0 k) = Prim2SF (255 * (1 - k))%float.
Proof.
  intros Hk Hw. unfold blend. set (w := (255 * (1 - k))%float) in *.
  apply (normalIn_spec _ _ _ 4503599627370496 (-64) 4503599627370496 (-52)) in Hk;
    try reflexivity.
  destruct Hk as (mk & ek & Ek & _).
  rewrite add_spec, mul_spec, Ek. change (Prim2SF 0) with (S754_zero false).
  apply orb_true_iff in Hw as [Hw|Hw].
  - apply isZero_spec in Hw. rewrite Hw. reflexivity.
  - apply (normalIn_spec _ _ _ 4503599627370496 (-56) 8972014882652160 (-45)) in Hw;
      try reflexivity.
    destruct Hw as (mw & ew & -> & _). reflexivity.
Qed.

(** The blend grows with the target component, for every pixel. *)
Lemma blend_le r0 g0 b0 t t' :
  is_u8 r0 -> is_u8 g0 -> is_u8 b0 -> is_u8 t -> is_u8 t' -> t <= t' ->
  (blend (Number.ofZ t)
     (intensity (luminance (Number.ofZ r0) (Number.ofZ g0) (Number.ofZ b0)))
   <=? blend (Number.ofZ t')
         (intensity (luminance (Number.ofZ r0) (Number.ofZ g0) (Number.ofZ b0))))%float
  = true.
Proof.
  intros Hr Hg Hb Ht Ht' Hle.
  destruct (pixelCheck_byte r0 g0 b0 Hr Hg Hb) as (_ & _ & Hkind).
  set (k := intensity (luminance (Number.ofZ r0) (Number.ofZ g0) (Number.ofZ b0))) in *.
  cbn zeta in Hkind. destruct Hkind as [Hz|[Hk Hwhite]].
  - apply isZero_spec in Hz. rewrite Hz, !blend_at_zero by done. reflexivity.
  - destruct (Z.eq_dec t 0) as [->|Hne].
    + change (Number.ofZ 0) with 0%float.
      rewrite leb_spec, (blend_target_zero k Hk Hwhite).
      destruct (Z.eq_dec t' 0) as [->|Hne'].
      * change (Number.ofZ 0) with 0%float. rewrite (blend_target_zero k Hk Hwhite).
        apply orb_true_iff in Hwhite as [Hw|Hw].
        -- apply isZero_spec in Hw. rewrite Hw. reflexivity.
        -- apply (normalIn_spec _ _ _ 4503599627370496 (-56) 8972014882652160 (-45)) in Hw;
             try reflexivity.
           destruct Hw as (mw & ew & -> & _). apply SFleb_finite. right. cbn. lia.
      * pose proof (byte_normal t' Ht' Hne') as Hc.
        apply (normalIn_spec _ _ _ 4503599627370496 (-52) 8972014882652160 (-45)) in Hc;
          try reflexivity.
        pose proof Hk as Hk'.
        apply (normalIn_spec _ _ _ 4503599627370496 (-64) 4503599627370496 (-52)) in Hk';
          try reflexivity.
        destruct (SFmul_normal_mono _ _ _ _ _ _ _ Hc Hc Hk') as [Hp _]; [lia|lia|].
        unfold blend. set (w := (255 * (1 - k))%float) in *.
        rewrite add_spec, mul_spec.
        apply orb_true_iff in Hwhite as [Hw|Hw].
        -- apply isZero_spec in Hw. rewrite Hw. change (Prim2SF 0) with (S754_zero false).
           rewrite (SFadd_zero_r _ _ _ Hp). by eapply SFleb_zero_normal.
        -- apply (normalIn_spec _ _ _ 4503599627370496 (-56) 8972014882652160 (-45)) in Hw;
             try reflexivity.
           eapply SFadd_ge; try done; lia.
    + apply (blend_monotone (Number.ofZ t) (Number.ofZ t') k); try done.
      * by apply byte_normal.
      * apply byte_normal; [done|]. unfold is_u8 in *. lia.
      * by apply byte_le.
Qed.

Lemma channel_le r0 g0 b0 t t' :
  is_u8 r0 -> is_u8 g0 -> is_u8 b0 -> is_u8 t -> is_u8 t' -> t <= t' ->
  Number.ToUint8Clamp
    (blend (Number.ofZ t)
       (intensity (luminance (Number.ofZ r0) (Number.ofZ g0) (Number.ofZ b0))))
  <= Number.ToUint8Clamp
       (blend (Number.ofZ t')
          (intensity (luminance (Number.ofZ r0) (Number.ofZ g0) (Number.ofZ b0)))).
Proof.
  intros Hr Hg Hb Ht Ht' Hle.
  destruct (blend_bounds r0 g0 b0 t Hr Hg Hb Ht) as [H0 H1].
  destruct (blend_bounds r0 g0 b0 t' Hr Hg Hb Ht') as [_ H1'].
  apply ToUint8Clamp_mono; try done. by apply blend_le.
Qed.

(** X5. A brighter target never gives a darker result: for one pixel, if
    each component of a target colour is at most the same component of
    another, each channel of the first result is at most the same channel of
    the second. *)
Theorem recolor_monotone_in_target (d : list Z) (p : nat) (r0 g0 b0 a : Z)
    (tr tg tb tr' tg' tb' : Z) :
  pixelAt d p = Some (r0, g0, b0, a) ->
  is_u8 r0 -> is_u8 g0 -> is_u8 b0 ->
  is_u8 tr -> is_u8 tg -> is_u8 tb -> is_u8 tr' -> is_u8 tg' -> is_u8 tb' ->
  tr <= tr' -> tg <= tg' -> tb <= tb' ->
  exists r1 g1 b1 r2 g2 b2,
    pixelAt (recolor (rgbOfBytes tr tg tb) d) p = Some (r1, g1, b1, a) /\
    pixelAt (recolor (rgbOfBytes tr' tg' tb') d) p = Some (r2, g2, b2, a) /\
    r1 <= r2 /\ g1 <= g2 /\ b1 <= b2.
Proof.
  intros Hpx Hr Hg Hb Htr Htg Htb Htr' Htg' Htb' Hler Hleg Hleb.
  rewrite !(recolor_pixel _ _ _ _ Hpx). unfold recolorPixel.
  destruct (0 <? Number.ofZ a)%float.
  - cbn [r g b rgbOfBytes]. eexists _, _, _, _, _, _.
    split; [done|]. split; [done|]. repeat split; by apply channel_le.
  - exists r0, g0, b0, r0, g0, b0. repeat split; lia.
Qed.

Lemma recolor_monotone_in_target_witness :
  exists r1 g1 b1 r2 g2 b2,
    pixelAt (recolor (rgbOfBytes 0 100 128) [10; 200; 77; 128]) 0 = Some (r1, g1, b1, 128) /\
    pixelAt (recolor (rgbOfBytes 74 100 255) [10; 200; 77; 128]) 0 = Some (r2, g2, b2, 128) /\
    r1 <= r2 /\ g1 <= g2 /\ b1 <= b2.
Proof.
  apply (recolor_monotone_in_target [10; 200; 77; 128] 0 10 200 77 128 0 100 128 74 100 255);
    [reflexivity | unfold is_u8; lia ..].
Defined.

(** ** The colour parser *)

Lemma hexToRgb_bytes_witness :
  exists tr tg tb,
    is_u8 tr /\ is_u8 tg /\ is_u8 tb /\ mkRgb 74 222 128 = rgbOfBytes tr tg tb.
Proof. apply (hexToRgb_bytes "4ADE80" (mkRgb 74 222 128)). reflexivity. Defined.









Lemma hexToRgb_Some (s : string) (c : rgb) :
  hexToRgb s = Some c ->
  colorToHex c = RegExp.toUpperCase <$> stripHash (list_ascii_of_string s).
Proof.
  rewrite hexToRgb_spec. unfold matchesColorPattern, colorOfDigits.
  destruct (stripHash _) as [|c1 [|c2 [|c3 [|c4 [|c5 [|c6 [|c7 t]]]]]]];
    try (by destruct (_ && _)).
  cbn [length Nat.eqb andb].
  destruct (forallb isHexDigit _) eqn:Hall; [|done].
  cbn [forallb] in Hall. rewrite !andb_true_iff in Hall.
  destruct Hall as (H1 & H2 & H3 & H4 & H5 & H6 & _).
  intros [= <-]. unfold colorToHex, rgbOfBytes. cbn [r g b]. by rewrite !toHex2_pair.
Qed.

(** X11. Two strings that are parsed to the same colour are the same string,
    up to the case of the digits and the optional [#]. *)
Theorem hexToRgb_injective (s s' : string) (c : rgb) :
  hexToRgb s = Some c -> hexToRgb s' = Some c ->
  RegExp.toUpperCase <$> stripHash (list_ascii_of_string s)
  = RegExp.toUpperCase <$> stripHash (list_ascii_of_string s').
Proof.
  intros Hs Hs'. by rewrite <- (hexToRgb_Some s c Hs), <- (hexToRgb_Some s' c Hs').
Qed.

Lemma hexToRgb_injective_witness :
  RegExp.toUpperCase <$> stripHash (list_ascii_of_string "#4aDe80")
  = RegExp.toUpperCase <$> stripHash (list_ascii_of_string "4AdE80").
Proof.
  apply (hexToRgb_injective "#4aDe80" "4AdE80" (mkRgb 74 222 128)); reflexivity.
Defined.

Lemma hash_not_hex_false ch : isHexDigit ch = true -> Ascii.eqb ch "#" = false.
Proof.
  intros Hh. destruct (Ascii.eqb ch "#") eqn:He; [|done].
  apply hash_not_hex in He. congruence.
Qed.

(** A byte is printed as two hexadecimal digits with its value. *)
Lemma toHex2_byte t :
  is_u8 t ->
  exists h1 h2, toHex2 (Number.ofZ t) = [h1; h2] /\
    isHexDigit h1 = true /\ isHexDigit h2 = true /\ pairValue h1 h2 = t.
Proof.
  intros Ht.
  pose proof (forBytes_spec
    (fun t => match toHex2 (Number.ofZ t) with
              | [h1; h2] => isHexDigit h1 && isHexDigit h2 && (pairValue h1 h2 =? t)
              | _ => false
              end)) as Hall.
  cbn beta in Hall. specialize (Hall ltac:(vm_compute; reflexivity) t Ht).
  destruct (toHex2 (Number.ofZ t)) as [|h1 [|h2 [|? ?]]]; try done.
  rewrite !andb_true_iff in Hall. destruct Hall as [[H1 H2] Hv].
  apply Z.eqb_eq in Hv. by exists h1, h2.
Qed.

(** X12. Every colour with byte components is the parse of its six-digit
    form, with or without the [#]: the parser reaches every colour. *)
Theorem hexToRgb_colorToHex (tr tg tb : Z) :
  is_u8 tr -> is_u8 tg -> is_u8 tb ->
  hexToRgb (string_of_list_ascii (colorToHex (rgbOfBytes tr tg tb)))
    = Some (rgbOfBytes tr tg tb) /\
  hexToRgb (String "#" (string_of_list_ascii (colorToHex (rgbOfBytes tr tg tb))))
    = Some (rgbOfBytes tr tg tb).
Proof.
  intros Hr Hg Hb.
  destruct (toHex2_byte tr Hr) as (r1 & r2 & Er & Hr1 & Hr2 & Vr).
  destruct (toHex2_byte tg Hg) as (g1 & g2 & Eg & Hg1 & Hg2 & Vg).
  destruct (toHex2_byte tb Hb) as (b1 & b2 & Eb & Hb1 & Hb2 & Vb).
  rewrite !hexToRgb_spec. unfold matchesColorPattern, colorToHex.
  cbn [list_ascii_of_string r g b rgbOfBytes].
  rewrite list_ascii_of_string_of_list_ascii, Er, Eg, Eb.
  cbn [app stripHash]. change (Ascii.eqb "#" "#") with true. cbn iota.
  rewrite (hash_not_hex_false r1 Hr1).
  cbn [length Nat.eqb forallb andb colorOfDigits].
  rewrite Hr1, Hr2, Hg1, Hg2, Hb1, Hb2. cbn [andb]. by rewrite Vr, Vg, Vb.
Qed.

Lemma hexToRgb_colorToHex_witness :
  hexToRgb (string_of_list_ascii (colorToHex (rgbOfBytes 74 222 128)))
    = Some (rgbOfBytes 74 222 128) /\
  hexToRgb (String "#" (string_of_list_ascii (colorToHex (rgbOfBytes 74 222 128))))
    = Some (rgbOfBytes 74 222 128).
Proof. apply (hexToRgb_colorToHex 74 222 128); unfold is_u8; lia. Defined.

(** ** The component *)

(** X13. [processImage] itself never touches the selected colour, the loaded
    original or the displayed result, and without an image or without a
    canvas it does nothing at all. *)
Theorem processImage_frame (canvasPresent contextPresent : bool) (st : AppState) :
  selectedColor (processImage canvasPresent contextPresent st).1 = selectedColor st /\
  originalImage (processImage canvasPresent contextPresent st).1 = originalImage st /\
  processedImage (processImage canvasPresent contextPresent st).1 = processedImage st /\
  (truthy (originalImage st) && canvasPresent = false ->
   processImage canvasPresent contextPresent st = (st, None)).
Proof.
  unfold processImage.
  destruct (truthy (originalImage st)), canvasPresent; cbn -[hexToRgb]; try done.
  by destruct contextPresent, (hexToRgb (selectedColor st)).
Qed.

Lemma hexToRgb_None_iff (s : string) :
  hexToRgb s = None <-> matchesColorPattern s = false.
Proof.
  rewrite hexToRgb_spec. destruct (matchesColorPattern s) eqn:Hm; [|done].
  unfold matchesColorPattern in Hm. apply andb_true_iff in Hm as [Hlen _].
  by destruct (stripHash _) as [|c1 [|c2 [|c3 [|c4 [|c5 [|c6 [|c7 t]]]]]]].
Qed.

Lemma truthy_Some (o : option string) :
  truthy o = true -> o = Some (default EmptyString o).
Proof. by destruct o as [[|]|]. Qed.

(** X14. A load is started exactly when there is an image, a canvas, a
    context and a selected colour of the pattern; it then carries the image
    and the parsed colour, the loading flag is set and the message cleared.
    Otherwise, with an image and a canvas, the message reports the invalid
    colour format and the loading flag is cleared. *)
Theorem processImage_starts_load (canvasPresent contextPresent : bool) (st : AppState) :
  ((processImage canvasPresent contextPresent st).2 <> None <->
   truthy (originalImage st) = true /\ canvasPresent = true /\ contextPresent = true /\
   matchesColorPattern (selectedColor st) = true) /\
  (forall req, (processImage canvasPresent contextPresent st).2 = Some req ->
     originalImage st = Some (src req) /\
     hexToRgb (selectedColor st) = Some (newColorRgb req) /\
     isLoading (processImage canvasPresent contextPresent st).1 = true /\
     error (processImage canvasPresent contextPresent st).1 = None) /\
  (truthy (originalImage st) = true -> canvasPresent = true ->
   (processImage canvasPresent contextPresent st).2 = None ->
   isLoading (processImage canvasPresent contextPresent st).1 = false /\
   error (processImage canvasPresent contextPresent st).1
     = Some "Invalid color format."%string).
Proof.
  pose proof (hexToRgb_None_iff (selectedColor st)) as Hnone.
  pose proof (truthy_Some (originalImage st)) as Hsome.
  unfold processImage.
  destruct (truthy (originalImage st)); cbn [negb orb].
  2: { cbn [fst snd]. split; [|split]; [split; [done|intros [? _]; done] | done | done]. }
  destruct canvasPresent; cbn [negb].
  2: { cbn [fst snd]. split; [|split]; [split; [done|intros (_ & ? & _); done] | done | done]. }
  cbn [selectedColor setError setIsLoading originalImage].
  destruct contextPresent.
  2: { cbn [fst snd error isLoading setError setIsLoading].
       split; [|split]; [split; [done|intros (_ & _ & ? & _); done] | done | done]. }
  destruct (hexToRgb (selectedColor st)) as [c|] eqn:Hc;
    cbn [fst snd error isLoading setError setIsLoading src newColorRgb].
  - split; [|split].
    + split; [intros _|done]. repeat split.
      destruct (matchesColorPattern (selectedColor st)); [done|].
      destruct Hnone as [_ Hn]. by specialize (Hn eq_refl).
    + intros req [= <-]. cbn [src newColorRgb]. by rewrite <- Hsome.
    + done.
  - split; [|split].
    + split; [done|]. intros (_ & _ & _ & Hm). destruct Hnone as [Hn _].
      specialize (Hn eq_refl). congruence.
    + done.
    + done.
Qed.

Section Runs.

Variable Image : Type.
Variable getImageData : Image -> option ImageData.
Variable toDataURL : ImageData -> string.

(** What [processImage] returns when everything is in place. *)
Lemma processImage_ready (st : AppState) (s : string) (c : rgb) :
  originalImage st = Some s -> s <> EmptyString ->
  hexToRgb (selectedColor st) = Some c ->
  processImage true true st
  = (setError None (setIsLoading true st), Some (mkLoadRequest s c)).
Proof.
  intros Ho Hs Hc. unfold processImage. rewrite Ho.
  destruct s as [|ch s]; [done|]. cbn -[hexToRgb]. by rewrite Hc, ?Ho.
Qed.

(** X15. A whole successful run: with an image, a canvas, a context and a
    colour [c], the panel shows the spinner while the image loads; when it
    has loaded and decoded, the result is the encoding of the recoloured
    image, of the same width and height, any earlier message is gone, the
    loading flag is cleared and, unless the encoding is empty, the panel
    shows the result. *)
Theorem successful_run (st : AppState) (s : string) (c : rgb)
    (img : Image) (imageData : ImageData) :
  originalImage st = Some s -> s <> EmptyString ->
  hexToRgb (selectedColor st) = Some c ->
  getImageData img = Some imageData ->
  exists req,
    processImage true true st = ((processImage true true st).1, Some req) /\
    panel (render (processImage true true st).1) = Spinner /\
    processedImage (onload Image getImageData toDataURL req img (processImage true true st).1)
      = Some (toDataURL (recolorImageData c imageData)) /\
    width (recolorImageData c imageData) = width imageData /\
    height (recolorImageData c imageData) = height imageData /\
    error (onload Image getImageData toDataURL req img (processImage true true st).1) = None /\
    isLoading (onload Image getImageData toDataURL req img (processImage true true st).1)
      = false /\
    (toDataURL (recolorImageData c imageData) <> EmptyString ->
     panel (render (onload Image getImageData toDataURL req img (processImage true true st).1))
     = ResultImage (toDataURL (recolorImageData c imageData))).
Proof.
  intros Ho Hs Hc Hdec. rewrite (processImage_ready st s c Ho Hs Hc).
  exists (mkLoadRequest s c). cbn [fst snd]. unfold onload. rewrite Hdec.
  cbn [newColorRgb]. repeat split.
  intros Hne. unfold render. cbn.
  by destruct (toDataURL (recolorImageData c imageData)).
Qed.

(** X16. A run that fails keeps what was displayed: when the image does not
    load, or loads but cannot be read back from the canvas, the loading flag
    is cleared and a message is set, and the displayed result, the loaded
    original and the selected colour are as they were. *)
Theorem failed_run_keeps_result (req : LoadRequest) (img : Image) (st : AppState) :
  getImageData img = None ->
  (isLoading (onload Image getImageData toDataURL req img st) = false /\
   error (onload Image getImageData toDataURL req img st)
     = Some "Could not process the image. Please ensure it is a valid PNG file."%string /\
   processedImage (onload Image getImageData toDataURL req img st) = processedImage st /\
   originalImage (onload Image getImageData toDataURL req img st) = originalImage st /\
   selectedColor (onload Image getImageData toDataURL req img st) = selectedColor st) /\
  (isLoading (onerror st) = false /\
   error (onerror st)
     = Some "Failed to load the image. It might be an invalid format."%string /\
   processedImage (onerror st) = processedImage st /\
   originalImage (onerror st) = originalImage st /\
   selectedColor (onerror st) = selectedColor st).
Proof. intros Hdec. unfold onload, onerror. rewrite Hdec. repeat split. Qed.

(** X17. Nothing ties a completion to the latest request.  If the colour is
    changed while a run is in flight and the image of the earlier run loads
    after the image of the later run, the result that stays displayed is the
    one of the earlier colour, beside the later colour in the picker. *)
Theorem stale_run_overwrites (st : AppState) (s v : string) (c c' : rgb)
    (img : Image) (imageData : ImageData) :
  originalImage st = Some s -> s <> EmptyString ->
  hexToRgb (selectedColor st) = Some c -> hexToRgb v = Some c' ->
  getImageData img = Some imageData ->
  exists req req' st1 st2,
    processImage true true st = (st1, Some req) /\
    effect true true (handleColorChange v st1) = (st2, Some req') /\
    newColorRgb req = c /\ newColorRgb req' = c' /\
    selectedColor
      (onload Image getImageData toDataURL req img
         (onload Image getImageData toDataURL req' img st2)) = v /\
    processedImage
      (onload Image getImageData toDataURL req img
         (onload Image getImageData toDataURL req' img st2))
      = Some (toDataURL (recolorImageData c imageData)).
Proof.
  intros Ho Hs Hc Hv Hdec.
  exists (mkLoadRequest s c), (mkLoadRequest s c').
  eexists _, _. split; [by apply processImage_ready|].
  unfold effect. cbn [handleColorChange setSelectedColor originalImage setError setIsLoading].
  rewrite Ho. destruct s as [|ch s]; [done|]. cbn [truthy].
  split.
  { apply (processImage_ready _ (String ch s) c'); done. }
  unfold onload. rewrite Hdec. by cbn.
Qed.

End Runs.

Lemma successful_run_witness :
  exists req,
    processImage true true shownState = ((processImage true true shownState).1, Some req) /\
    panel (render (processImage true true shownState).1) = Spinner /\
    processedImage
      (onload unit (fun _ => Some (mkImageData 1 1 [0; 0; 0; 255])) (fun _ => "url"%string)
         req tt (processImage true true shownState).1)
      = Some "url"%string /\
    width (recolorImageData (rgbOfBytes 74 222 128) (mkImageData 1 1 [0; 0; 0; 255])) = 1%nat /\
    height (recolorImageData (rgbOfBytes 74 222 128) (mkImageData 1 1 [0; 0; 0; 255])) = 1%nat /\
    error
      (onload unit (fun _ => Some (mkImageData 1 1 [0; 0; 0; 255])) (fun _ => "url"%string)
         req tt (processImage true true shownState).1) = None /\
    isLoading
      (onload unit (fun _ => Some (mkImageData 1 1 [0; 0; 0; 255])) (fun _ => "url"%string)
         req tt (processImage true true shownState).1) = false /\
    ("url"%string <> EmptyString ->
     panel
       (render
          (onload unit (fun _ => Some (mkImageData 1 1 [0; 0; 0; 255])) (fun _ => "url"%string)
             req tt (processImage true true shownState).1))
     = ResultImage "url"%string).
Proof.
  apply (successful_run unit (fun _ => Some (mkImageData 1 1 [0; 0; 0; 255]))
           (fun _ => "url"%string) shownState "data:image/png;base64,AAAA"
           (rgbOfBytes 74 222 128) tt (mkImageData 1 1 [0; 0; 0; 255]));
    [reflexivity | discriminate | reflexivity | reflexivity].
Defined.

Lemma failed_run_keeps_result_witness :
  (isLoading (onload unit (fun _ => None) (fun _ => "url"%string)
                (mkLoadRequest "src" (rgbOfBytes 74 222 128)) tt shownState) = false /\
   error (onload unit (fun _ => None) (fun _ => "url"%string)
            (mkLoadRequest "src" (rgbOfBytes 74 222 128)) tt shownState)
     = Some "Could not process the image. Please ensure it is a valid PNG file."%string /\
   processedImage (onload unit (fun _ => None) (fun _ => "url"%string)
                     (mkLoadRequest "src" (rgbOfBytes 74 222 128)) tt shownState)
     = processedImage shownState /\
   originalImage (onload unit (fun _ => None) (fun _ => "url"%string)
                    (mkLoadRequest "src" (rgbOfBytes 74 222 128)) tt shownState)
     = originalImage shownState /\
   selectedColor (onload unit (fun _ => None) (fun _ => "url"%string)
                    (mkLoadRequest "src" (rgbOfBytes 74 222 128)) tt shownState)
     = selectedColor shownState) /\
  (isLoading (onerror shownState) = false /\
   error (onerror shownState)
     = Some "Failed to load the image. It might be an invalid format."%string /\
   processedImage (onerror shownState) = processedImage shownState /\
   originalImage (onerror shownState) = originalImage shownState /\
   selectedColor (onerror shownState) = selectedColor shownState).
Proof.
  apply (failed_run_keeps_result unit (fun _ => None) (fun _ => "url"%string)
           (mkLoadRequest "src" (rgbOfBytes 74 222 128)) tt shownState).
  reflexivity.
Defined.

Lemma stale_run_overwrites_witness :
  exists req req' st1 st2,
    processImage true true shownState = (st1, Some req) /\
    effect true true (handleColorChange "#ff0000" st1) = (st2, Some req') /\
    newColorRgb req = rgbOfBytes 74 222 128 /\ newColorRgb req' = rgbOfBytes 255 0 0 /\
    selectedColor
      (onload unit (fun _ => Some (mkImageData 1 1 [0; 0; 0; 255]))
         (fun im => string_of_list_ascii (colorToHex (rgbOfBytes 0 0 0))) req tt
         (onload unit (fun _ => Some (mkImageData 1 1 [0; 0; 0; 255]))
            (fun im => string_of_list_ascii (colorToHex (rgbOfBytes 0 0 0))) req' tt st2))
      = "#ff0000"%string /\
    processedImage
      (onload unit (fun _ => Some (mkImageData 1 1 [0; 0; 0; 255]))
         (fun im => string_of_list_ascii (colorToHex (rgbOfBytes 0 0 0))) req tt
         (onload unit (fun _ => Some (mkImageData 1 1 [0; 0; 0; 255]))
            (fun im => string_of_list_ascii (colorToHex (rgbOfBytes 0 0 0))) req' tt st2))
      = Some ((fun im => string_of_list_ascii (colorToHex (rgbOfBytes 0 0 0)))
                (recolorImageData (rgbOfBytes 74 222 128) (mkImageData 1 1 [0; 0; 0; 255]))).
Proof.
  apply (stale_run_overwrites unit (fun _ => Some (mkImageData 1 1 [0; 0; 0; 255]))
           (fun im => string_of_list_ascii (colorToHex (rgbOfBytes 0 0 0)))
           shownState "data:image/png;base64,AAAA" "#ff0000"
           (rgbOfBytes 74 222 128) (rgbOfBytes 255 0 0) tt (mkImageData 1 1 [0; 0; 0; 255]));
    [reflexivity | discriminate | reflexivity | reflexivity | reflexivity].
Defined.



(** X19. What the page shows after a refused upload, when no run is in
    flight: the placeholder instead of any earlier result, the button of the
    first upload, and the message asking for a PNG file. *)
Theorem refused_upload_screen (file : option File) (st : AppState) :
  (forall f, file = Some f -> type f <> "image/png"%string) ->
  isLoading st = false ->
  panel (render (handleFileChange file st).1) = Placeholder /\
  buttonLabel (render (handleFileChange file st).1) = "Upload PNG File"%string /\
  errorText (render (handleFileChange file st).1)
    = Some "Please upload a valid PNG file."%string /\
  (handleFileChange file st).2 = None.
Proof.
  intros Hty Hload. unfold handleFileChange.
  destruct file as [f|].
  - destruct (String.eqb_spec (type f) "image/png") as [Heq|_]; [by destruct (Hty f)|].
    unfold render. cbn. by rewrite Hload.
  - unfold render. cbn. by rewrite Hload.
Qed.

Lemma refused_upload_screen_witness :
  panel (render (handleFileChange (Some jpegFile) shownState).1) = Placeholder /\
  buttonLabel (render (handleFileChange (Some jpegFile) shownState).1)
    = "Upload PNG File"%string /\
  errorText (render (handleFileChange (Some jpegFile) shownState).1)
    = Some "Please upload a valid PNG file."%string /\
  (handleFileChange (Some jpegFile) shownState).2 = None.
Proof.
  apply (refused_upload_screen (Some jpegFile) shownState); [|reflexivity].
  intros f [= <-]. discriminate.
Defined.

